(** * VIREON Mensa engine and solver: a shallow embedding

    The two Python modules [vireon_mensa_engine.py] (question generation)
    and [vireon_mensa_solver.py] (answer recomputation) are pure functions
    of a key [(test_id, question_idx)].  Python integers are unbounded, so
    they are embedded as [Z]; Python's [%] and [//] on integers are floor
    modulo and floor division, which is what [Z.modulo] and [Z.div] compute
    (the result of [%] has the sign of the divisor).  Exceptions and the two
    [while] loops are made explicit by an outcome monad. *)

From Stdlib Require Import ZArith Znumtheory String Ascii List DecimalString Lia Bool.
From Stdlib Require DecimalPos DecimalZ.
From stdpp Require Import gmap strings list fin_maps.

Set Warnings "-register-all".
Open Scope Z_scope.

(** ** Python values and control effects *)

(** The exceptions the embedded code can raise. *)
Inductive exn : Type :=
| ValueError (msg : string)
| IndexError
| ZeroDivisionError.

(** What a call does: return a value, raise, or loop forever. *)
Inductive outcome (A : Type) : Type :=
| Returns (a : A)
| Raises (e : exn)
| Diverges.
Arguments Returns {A} a.
Arguments Raises {A} e.
Arguments Diverges {A}.

#[global] Instance outcome_ret : MRet outcome := fun A a => Returns a.
#[global] Instance outcome_bind : MBind outcome := fun A B f m =>
  match m with
  | Returns a => f a
  | Raises e => Raises e
  | Diverges => Diverges
  end.

(** Values stored in a question's [meta] dictionary. *)
Inductive meta_value : Type :=
| MInt (z : Z)
| MStr (s : string)
| MList (l : list meta_value)
| MTuple (l : list meta_value)
| MDict (m : gmap string meta_value).

(** The dictionary returned by every generator handler. *)
Record Question : Type := mkQuestion {
  q_test_id : Z;
  q_question_idx : Z;
  q_domain : string;
  q_prompt : string;
  q_meta : gmap string meta_value
}.

(** The solver's answers: an integer, a string, or a pair of integers. *)
Inductive Answer : Type :=
| AInt (z : Z)
| AStr (s : string)
| APair (a b : Z).

(** The nine domains; each has one handler in the generator and one in
    the solver. *)
Inductive Domain : Type :=
| Numeric | Logic | Arrows | Letter | Word | Raven | BaseConv | Shape | SelfRef.

Module Py.

(** The newline character of the prompts. *)
Definition nl : string := String (ascii_of_nat 10) EmptyString.

(** [str(n)] for an integer. *)
Definition str (z : Z) : string := NilZero.string_of_int (Z.to_int z).

(** [sep.join(l)]. *)
Fixpoint join (sep : string) (l : list string) : string :=
  match l with
  | [] => EmptyString
  | [x] => x
  | x :: tl => x +:+ sep +:+ join sep tl
  end.

(** [range(a, b)]. *)
Definition range (a b : Z) : list Z :=
  map (fun i => a + Z.of_nat i) (seq 0 (Z.to_nat (b - a))).

(** [a % b] with a divisor that is not a literal. *)
Definition mod_ (a b : Z) : outcome Z :=
  if b =? 0 then Raises ZeroDivisionError else Returns (a mod b).

(** [a // b] with a divisor that is not a literal. *)
Definition floordiv (a b : Z) : outcome Z :=
  if b =? 0 then Raises ZeroDivisionError else Returns (a / b).

(** The position a subscript [i] denotes in a sequence of length [n]:
    negative subscripts count from the end, anything else outside
    [0, n) raises [IndexError]. *)
Definition subscript (n : nat) (i : Z) : outcome nat :=
  let j := if i <? 0 then i + Z.of_nat n else i in
  if (0 <=? j) && (j <? Z.of_nat n) then Returns (Z.to_nat j)
  else Raises IndexError.

(** [l[i]] on a list. *)
Definition getitem {A : Type} (l : list A) (i : Z) : outcome A :=
  j ← subscript (length l) i;
  match l !! j with
  | Some x => Returns x
  | None => Raises IndexError
  end.

(** [l[i] = x] on a list. *)
Definition setitem {A : Type} (l : list A) (i : Z) (x : A) : outcome (list A) :=
  j ← subscript (length l) i;
  Returns (<[j:=x]> l).

(** [s[i]] on a string: a string of one character. *)
Definition getchar (s : string) (i : Z) : outcome string :=
  j ← subscript (String.length s) i;
  match String.get j s with
  | Some c => Returns (String c EmptyString)
  | None => Raises IndexError
  end.

(** [chr(n)], on the code points below 128 (one byte each); the code
    only calls it on [ord('A') + p % 26]. *)
Definition chr (n : Z) : string := String (ascii_of_N (Z.to_N n)) EmptyString.

(** [ord('A')]. *)
Definition ord_A : Z := 65.

(** [sub in s] on strings. *)
Definition contains (sub s : string) : bool :=
  match String.index 0 sub s with
  | Some _ => true
  | None => false
  end.

End Py.

(** ** The generator, [vireon_mensa_engine.py] *)

Module Engine.
Import Py.

Definition NUM_TESTS : Z := 1000.
Definition QUESTIONS_PER_TEST : Z := 100.

(** *** Domain 1: numeric sequences (Q 1-15) *)

(** The seed parameters of [generate_numeric_question]:
    [(base, alpha, beta, even_offset, odd_offset)]. *)
Definition numeric_params (test_id question_idx : Z) : Z * Z * Z * Z * Z :=
  let local := question_idx in
  let base := (3 * test_id + 5 * local) mod 97 + 10 in
  let alpha := (2 * test_id + local) mod 11 + 1 in
  let beta := (test_id + 3 * local) mod 7 + 1 in
  let even_offset := (test_id * local) mod 9 in
  let odd_offset := (test_id + local) mod 9 in
  (base, alpha, beta, even_offset, odd_offset).

(** The first loop of [generate_numeric_question]: the list [seq]. *)
Definition numeric_seq (test_id question_idx : Z) : list Z :=
  let length := 7 in
  let '(base, alpha, beta, even_offset, odd_offset) :=
    numeric_params test_id question_idx in
  map (fun n =>
         let k := n + 1 in
         let val := base + alpha * k + beta * (k * k) in
         if k mod 2 =? 0 then val + even_offset else val + odd_offset)
      (range 0 length).

(** The second loop of [generate_numeric_question]: the list [shown]. *)
Definition numeric_shown (test_id question_idx : Z) : list string :=
  let local := question_idx in
  let seq := numeric_seq test_id question_idx in
  let missing_pos := 2 + (local mod 3) in
  imap (fun i x => if Z.of_nat i =? missing_pos then "?"%string else str x) seq.

(** The fixed text before the terms in the numeric prompt. *)
Definition numeric_header (test_id question_idx : Z) : string :=
  "Test " +:+ str test_id +:+ ", Q" +:+ str question_idx
    +:+ " (Numeric sequence – hard):" +:+ nl
    +:+ "Fill in the missing number. The rule may depend on position," +:+ nl
    +:+ "parity, and more than one type of growth." +:+ nl +:+ nl
    +:+ "Sequence: ".

Definition generate_numeric_question (test_id question_idx : Z) : outcome Question :=
  let local := question_idx in
  let length := 7 in
  let shown := numeric_shown test_id question_idx in
  let prompt := numeric_header test_id question_idx +:+ join ", " shown in
  Returns {|
    q_test_id := test_id;
    q_question_idx := question_idx;
    q_domain := "numeric_sequence_hard";
    q_prompt := prompt;
    q_meta :=
      <["local_index" := MInt local]> (
      <["length" := MInt length]> (
      <["pattern_hint" := MStr "mix of linear, quadratic, and parity-based offsets"]> ∅))
  |}.

(** *** Domain 2: logic propositions (Q 16-25) *)

Definition generate_logic_question (test_id question_idx : Z) : outcome Question :=
  let local := question_idx - 15 in
  let pattern_type := (test_id + local) mod 4 in
  let stmt : string :=
    if pattern_type =? 0 then "(p AND q) OR (NOT r)"
    else if pattern_type =? 1 then "IF (p AND r) THEN (q XOR r)"
    else if pattern_type =? 2 then "(p XOR q) AND (q OR r)"
    else "IF (p OR q) THEN (NOT p AND r)" in
  let pseudo_prime_def : string :=
    "Call an integer 'prime-like' here if it has no divisors in "
      +:+ "the set {2, 3, 5, 7} other than 1." in
  let prompt :=
    "Test " +:+ str test_id +:+ ", Q" +:+ str question_idx
      +:+ " (Nested logic – hard):" +:+ nl
      +:+ "Let p be: 'test id " +:+ str test_id +:+ " is even'." +:+ nl
      +:+ "Let q be: 'local index " +:+ str local
      +:+ " (1–10 in this block) is a multiple of 3'." +:+ nl
      +:+ "Let r be: 'test_id + local_index is prime-like'." +:+ nl +:+ nl
      +:+ pseudo_prime_def +:+ nl +:+ nl
      +:+ "Consider the compound statement:" +:+ nl
      +:+ "    " +:+ stmt +:+ nl +:+ nl
      +:+ "Is this statement TRUE or FALSE?" in
  Returns {|
    q_test_id := test_id;
    q_question_idx := question_idx;
    q_domain := "nested_logic_hard";
    q_prompt := prompt;
    q_meta :=
      <["local_index" := MInt local]> (
      <["statement_form" := MStr stmt]> (
      <["prime_like_rule" := MStr "no divisors in {2,3,5,7} besides 1"]> ∅))
  |}.

(** *** Domain 3: symbolic arrow cycles (Q 26-35) *)

Definition generate_spatial_like_question (test_id question_idx : Z) : outcome Question :=
  let local := question_idx - 25 in
  let primary : list string := ["↑"; "→"; "↓"; "←"]%string in
  let secondary : list string := ["↖"; "↗"; "↘"; "↙"]%string in
  let N1 := 7 * test_id + 11 * local in
  let N2 := 5 * test_id - 3 * local in
  let prompt :=
    "Test " +:+ str test_id +:+ ", Q" +:+ str question_idx
      +:+ " (Dual-arrow cycle – hard):" +:+ nl
      +:+ "Consider two infinite repeating sequences:" +:+ nl
      +:+ "  Primary:   " +:+ join ", " primary +:+ " (then repeats)" +:+ nl
      +:+ "  Secondary: " +:+ join ", " secondary +:+ " (then repeats)" +:+ nl +:+ nl
      +:+ "At position N₁ = 7·" +:+ str test_id +:+ " + 11·" +:+ str local
      +:+ " in the Primary sequence," +:+ nl
      +:+ "and position N₂ = 5·" +:+ str test_id +:+ " − 3·" +:+ str local
      +:+ " in the Secondary sequence," +:+ nl
      +:+ "a pair of arrows (A, B) is observed." +:+ nl +:+ nl
      +:+ "What is the ordered pair (A, B)?" in
  Returns {|
    q_test_id := test_id;
    q_question_idx := question_idx;
    q_domain := "dual_arrow_cycle_hard";
    q_prompt := prompt;
    q_meta :=
      <["local_index" := MInt local]> (
      <["primary_cycle" := MList (MStr <$> primary)]> (
      <["secondary_cycle" := MList (MStr <$> secondary)]> (
      <["N1_expression" := MStr ("7*" +:+ str test_id +:+ " + 11*" +:+ str local)]> (
      <["N2_expression" := MStr ("5*" +:+ str test_id +:+ " - 3*" +:+ str local)]> ∅))))
  |}.

(** *** Domain 4: letter analogies (Q 36-45) *)

(** The inner function [enc] of [generate_letter_question]. *)
Definition enc (pos : Z) : string := chr (ord_A + (pos mod 26)).

(** The coefficients and inputs of [generate_letter_question]:
    [(a, b, x1, x2)]. *)
Definition letter_params (test_id question_idx : Z) : Z * Z * Z * Z :=
  let local := question_idx - 35 in
  let a := (2 * test_id + 1) mod 26 in
  let a := if a mod 2 =? 0 then (a + 1) mod 26 else a in
  let b := (3 * local + test_id) mod 26 in
  let x1 := (5 * test_id + local) mod 26 in
  let x2 := (x1 + 13) mod 26 in
  (a, b, x1, x2).

Definition generate_letter_question (test_id question_idx : Z) : outcome Question :=
  let local := question_idx - 35 in
  let '(a, b, x1, x2) := letter_params test_id question_idx in
  let A1 := enc x1 in
  let B1 := enc ((a * x1 + b) mod 26) in
  let A2 := enc x2 in
  let prompt :=
    "Test " +:+ str test_id +:+ ", Q" +:+ str question_idx
      +:+ " (Letter analogy – hard):" +:+ nl
      +:+ "A secret code maps each letter to another letter according to" +:+ nl
      +:+ "a fixed rule on its position in the alphabet." +:+ nl +:+ nl
      +:+ "Example:" +:+ nl
      +:+ "    " +:+ A1 +:+ " → " +:+ B1 +:+ nl +:+ nl
      +:+ "Using the same hidden rule, what letter does " +:+ A2 +:+ " map to?" +:+ nl
      +:+ "(All letters are in A–Z, positions taken modulo 26.)" in
  Returns {|
    q_test_id := test_id;
    q_question_idx := question_idx;
    q_domain := "letter_analogy_hard";
    q_prompt := prompt;
    q_meta :=
      <["local_index" := MInt local]> (
      <["a_mod_26" := MInt a]> (
      <["b_mod_26" := MInt b]> (
      <["example_input_index" := MInt x1]> (
      <["query_input_index" := MInt x2]> ∅))))
  |}.

(** *** Domain 5: word-style arithmetic stories (Q 46-55) *)

(** The story's quantities in [generate_word_question]:
    [(base_items, daily_gain, days, group, bonus_factor, loss)]. *)
Definition word_params (test_id question_idx : Z)
  : outcome (Z * Z * Z * Z * Z * Z) :=
  let local := question_idx - 45 in
  let base_items := 4 + (test_id mod 9) in
  let daily_gain := 1 + (local mod 5) in
  let days := 3 + ((test_id + local) mod 4) in
  let group := 2 + (test_id mod 4) in
  let bonus_factor := 1 + ((test_id * local) mod 3) in
  loss ← mod_ (base_items + daily_gain) (group + 1);
  Returns (base_items, daily_gain, days, group, bonus_factor, loss).

Definition generate_word_question (test_id question_idx : Z) : outcome Question :=
  let local := question_idx - 45 in
  '(base_items, daily_gain, days, group, bonus_factor, loss) ←
    word_params test_id question_idx;
  let prompt :=
    "Test " +:+ str test_id +:+ ", Q" +:+ str question_idx
      +:+ " (Layered word problem – hard):" +:+ nl
      +:+ "A researcher starts with " +:+ str base_items
      +:+ " experimental samples." +:+ nl
      +:+ "Each day, they create " +:+ str daily_gain
      +:+ " new samples, and this continues "
      +:+ "for " +:+ str days +:+ " days. After that, they multiply the total number of "
      +:+ "samples they have by a 'bonus factor' of " +:+ str bonus_factor +:+ "." +:+ nl
      +:+ "Finally, they must discard exactly " +:+ str loss
      +:+ " samples due to defects, "
      +:+ "and then divide the remaining samples equally among " +:+ str group
      +:+ " teams." +:+ nl +:+ nl
      +:+ "How many samples does each team receive?" in
  Returns {|
    q_test_id := test_id;
    q_question_idx := question_idx;
    q_domain := "word_arithmetic_hard";
    q_prompt := prompt;
    q_meta :=
      <["local_index" := MInt local]> (
      <["base_items" := MInt base_items]> (
      <["daily_gain" := MInt daily_gain]> (
      <["days" := MInt days]> (
      <["bonus_factor" := MInt bonus_factor]> (
      <["loss" := MInt loss]> (
      <["groups" := MInt group]> ∅))))))
  |}.

(** *** Domain 6: Raven-style 3x3 matrices (Q 56-70) *)

Definition shapes : list string := ["▲"; "■"; "●"; "★"]%string.
Definition orientations : list string := ["0°"; "90°"; "180°"; "270°"]%string.
Definition fills : list string := ["○"; "◐"; "●"]%string.

(** The inner function [cell_symbol], closed over the three bases. *)
Definition cell_symbol (base_idx base_orient base_fill r c : Z) : outcome string :=
  s_idx ← mod_ (base_idx + r + 2 * c) (Z.of_nat (length shapes));
  let o_idx := (base_orient + 2 * r + c) mod 4 in
  let f_idx := (base_fill + r + c) mod 3 in
  s ← getitem shapes s_idx;
  f ← getitem fills f_idx;
  o ← getitem orientations o_idx;
  Returns (s +:+ f +:+ "(" +:+ o +:+ ")").

Definition hints : list string := [
  "Row-wise, orientation changes in fixed increments.";
  "Column-wise, fill levels behave like addition modulo 3.";
  "Shapes drift systematically across rows and columns.";
  "Some rows can be interpreted as an 'xor' of feature patterns."
]%string.

Definition generate_raven_matrix_question (test_id question_idx : Z) : outcome Question :=
  let local := question_idx - 55 in
  base_idx ← mod_ (test_id + local) (Z.of_nat (length shapes));
  let base_orient := (2 * test_id + local) mod 4 in
  let base_fill := (3 * test_id + 2 * local) mod 3 in
  let rule_type := (test_id + 2 * local) mod 4 in
  let missing_mode := (test_id + local) mod 3 in
  grid ← mapM (fun r =>
                 mapM (fun c => cell_symbol base_idx base_orient base_fill r c)
                      (range 0 3))
              (range 0 3);
  let missing_rc :=
    if missing_mode =? 0 then (2, 2)
    else if missing_mode =? 1 then (1, 1)
    else (0, 2) in
  let '(mr, mc) := missing_rc in
  row ← getitem grid mr;
  row ← setitem row mc " ? "%string;
  grid ← setitem grid mr row;
  grid_lines ← mapM (fun r => row ← getitem grid r; Returns (join " | " row))
                    (range 0 3);
  let grid_text := join nl grid_lines in
  hint ← getitem hints rule_type;
  let prompt :=
    "Test " +:+ str test_id +:+ ", Q" +:+ str question_idx
      +:+ " (Raven-style matrix – hard):" +:+ nl
      +:+ "Below is a 3×3 grid of abstract figures; one cell is replaced by '?'."
      +:+ nl +:+ nl
      +:+ grid_text +:+ nl +:+ nl
      +:+ "The grid obeys a consistent rule combining row and column changes" +:+ nl
      +:+ "in shape, orientation, and fill." +:+ nl
      +:+ "Which figure should replace '?'?" +:+ nl +:+ nl
      +:+ "Hint: " +:+ hint in
  Returns {|
    q_test_id := test_id;
    q_question_idx := question_idx;
    q_domain := "raven_matrix_hard";
    q_prompt := prompt;
    q_meta :=
      <["local_index" := MInt local]> (
      <["rule_type" := MInt rule_type]> (
      <["missing_cell" := MDict (<["row" := MInt mr]> (<["col" := MInt mc]> ∅))]> ∅))
  |}.

(** *** Helper: integer to base representation *)

Definition digits : string := "0123456789ABCDEFGHIJKLMNOPQRSTUVWXYZ".

(** The [while x > 0] loop of [_to_base]; running out of [fuel] with the
    loop condition still true is reported as [Diverges]. *)
Fixpoint _to_base_loop (fuel : nat) (base x : Z) (out : string) : outcome string :=
  if 0 <? x then
    match fuel with
    | O => Diverges
    | S fuel' =>
        i ← mod_ x base;
        d ← getchar digits i;
        x' ← floordiv x base;
        _to_base_loop fuel' base x' (d +:+ out)
    end
  else Returns out.

(** With [base >= 2] the loop variable strictly decreases, so [n]
    iterations are enough; with [base < 0] one iteration is; with
    [base = 1] the Python loop never ends. *)
Definition _to_base (n base : Z) : outcome string :=
  if n =? 0 then Returns "0"%string
  else _to_base_loop (Z.to_nat n) base n "".

(** *** Domain 7: base conversion puzzles (Q 71-80) *)

(** The three bases of [generate_base_conversion_question]:
    [(base_x, base_y, base_z)]. *)
Definition base_params (test_id question_idx : Z) : Z * Z * Z :=
  let local := question_idx - 70 in
  let base_x := 5 + ((test_id + local) mod 12) in
  let base_y := 5 + ((2 * test_id + local) mod 12) in
  let base_y :=
    if base_y =? base_x then
      let base_y := 5 + ((3 * test_id + local) mod 12) in
      if base_y =? base_x then 16 else base_y
    else base_y in
  let base_z := 5 + ((test_id + 2 * local) mod 12) in
  (base_x, base_y, base_z).

(** The hidden integer of [generate_base_conversion_question]. *)
Definition base_N (test_id question_idx : Z) : Z :=
  let local := question_idx - 70 in
  200 + 17 * test_id + 11 * local.

Definition generate_base_conversion_question (test_id question_idx : Z)
  : outcome Question :=
  let local := question_idx - 70 in
  let '(base_x, base_y, base_z) := base_params test_id question_idx in
  let N := base_N test_id question_idx in
  repr_x ← _to_base N base_x;
  repr_y ← _to_base N base_y;
  repr_z ← _to_base N base_z;
  let prompt :=
    "Test " +:+ str test_id +:+ ", Q" +:+ str question_idx
      +:+ " (Base conversion – hard):" +:+ nl
      +:+ "A certain integer N is written as " +:+ repr_x +:+ " in base "
      +:+ str base_x +:+ " and as "
      +:+ repr_y +:+ " in base " +:+ str base_y +:+ ". When expressed in base "
      +:+ str base_z +:+ ", it "
      +:+ "would be written as " +:+ repr_z +:+ "." +:+ nl +:+ nl
      +:+ "All three representations refer to the same integer N." +:+ nl
      +:+ "What is the value of N when written in base 10 (ordinary decimal)?" in
  Returns {|
    q_test_id := test_id;
    q_question_idx := question_idx;
    q_domain := "base_conversion_hard";
    q_prompt := prompt;
    q_meta :=
      <["local_index" := MInt local]> (
      <["base_x" := MInt base_x]> (
      <["base_y" := MInt base_y]> (
      <["base_z" := MInt base_z]> (
      <["repr_x" := MStr repr_x]> (
      <["repr_y" := MStr repr_y]> (
      <["repr_z" := MStr repr_z]> ∅))))))
  |}.

(** *** Domain 8: next figure, modulo-based shape counts (Q 81-90) *)

(** The two moduli of [generate_shape_sequence_question]. *)
Definition shape_moduli (test_id question_idx : Z) : Z * Z :=
  let local := question_idx - 80 in
  let modulus_A := 5 + ((test_id + local) mod 5) in
  let modulus_B := 6 + ((2 * test_id + local) mod 5) in
  (modulus_A, modulus_B).

Definition generate_shape_sequence_question (test_id question_idx : Z)
  : outcome Question :=
  let local := question_idx - 80 in
  let '(modulus_A, modulus_B) := shape_moduli test_id question_idx in
  r ← mod_ (test_id + 2 * local) modulus_A; let base_A := 1 + r in
  r ← mod_ (2 * test_id + 3 * local) modulus_B; let base_B := 1 + r in
  r ← mod_ (3 * test_id + local) modulus_A; let step_A := 1 + r in
  r ← mod_ (4 * test_id + 2 * local) modulus_B; let step_B := 1 + r in
  shapeA ← getitem ["●"; "■"; "▲"]%string ((test_id + local) mod 3);
  shapeB ← getitem ["◆"; "✚"; "✕"]%string ((2 * test_id + local) mod 3);
  counts ← mapM (fun k =>
                   a ← mod_ (base_A + (k - 1) * step_A) modulus_A;
                   b ← mod_ (base_B + (k - 1) * step_B) modulus_B;
                   let a := if a =? 0 then modulus_A else a in
                   let b := if b =? 0 then modulus_B else b in
                   Returns (a, b))
                (range 1 5);
  let counts_A := counts.*1 in
  let counts_B := counts.*2 in
  lines ← mapM (fun i =>
                  cA ← getitem counts_A i;
                  cB ← getitem counts_B i;
                  Returns ("Figure " +:+ str (i + 1) +:+ ": " +:+ str cA +:+ " "
                             +:+ shapeA +:+ " symbols and "
                             +:+ str cB +:+ " " +:+ shapeB +:+ " symbols."))
               (range 0 4);
  let sequence_text := join nl lines in
  let prompt :=
    "Test " +:+ str test_id +:+ ", Q" +:+ str question_idx
      +:+ " (Next figure – coupled modulo):" +:+ nl
      +:+ "Consider the sequence of abstract figures:" +:+ nl +:+ nl
      +:+ sequence_text +:+ nl +:+ nl
      +:+ "The counts of " +:+ shapeA +:+ " and " +:+ shapeB
      +:+ " symbols each follow a modular" +:+ nl
      +:+ "arithmetic rule (but possibly with different moduli and steps)."
      +:+ nl +:+ nl
      +:+ "In Figure 5, how many " +:+ shapeA +:+ " symbols and how many "
      +:+ shapeB +:+ " symbols "
      +:+ "should appear?" in
  Returns {|
    q_test_id := test_id;
    q_question_idx := question_idx;
    q_domain := "shape_sequence_coupled_modulo_hard";
    q_prompt := prompt;
    q_meta :=
      <["local_index" := MInt local]> (
      <["modulus_A" := MInt modulus_A]> (
      <["modulus_B" := MInt modulus_B]> (
      <["shapeA" := MStr shapeA]> (
      <["shapeB" := MStr shapeB]> (
      <["first_four_A" := MList (MInt <$> counts_A)]> (
      <["first_four_B" := MList (MInt <$> counts_B)]> (
      <["rule_hint" :=
          MStr "two coupled linear progressions modulo different bases"]> ∅)))))))
  |}.

(** *** Domain 9: self-referential questions (Q 91-100) *)

(** [(digit, mode)] of [generate_self_referential_question]. *)
Definition self_ref_params (test_id question_idx : Z) : Z * Z :=
  let local := question_idx - 90 in
  let digit := (test_id + local) mod 10 in
  let mode := (test_id + 2 * local) mod 4 in
  (digit, mode).

Definition generate_self_referential_question (test_id question_idx : Z)
  : outcome Question :=
  let local := question_idx - 90 in
  let '(digit, mode) := self_ref_params test_id question_idx in
  let condition_text :=
    if mode =? 0 then
      "contain the digit " +:+ str digit +:+ " at least once (in decimal notation)"
    else if mode =? 1 then
      "contain the digit " +:+ str digit +:+ " at least once AND are even numbers"
    else if mode =? 2 then
      "contain the digit " +:+ str digit +:+ " at least once AND are prime numbers"
    else
      "contain the digit " +:+ str digit +:+ " at least once OR are divisible by 9" in
  let prompt :=
    "Test " +:+ str test_id +:+ ", Q" +:+ str question_idx
      +:+ " (Self-referential – hard):" +:+ nl
      +:+ "In this test, questions are numbered from 1 to "
      +:+ str QUESTIONS_PER_TEST +:+ "." +:+ nl
      +:+ "Consider those question numbers that " +:+ condition_text +:+ "."
      +:+ nl +:+ nl
      +:+ "How many such question numbers are there?" in
  Returns {|
    q_test_id := test_id;
    q_question_idx := question_idx;
    q_domain := "self_referential_hard";
    q_prompt := prompt;
    q_meta :=
      <["local_index" := MInt local]> (
      <["digit" := MInt digit]> (
      <["mode" := MInt mode]> (
      <["range" := MTuple [MInt 1; MInt QUESTIONS_PER_TEST]]> ∅)))
  |}.

(** *** Dispatcher and top-level iterator *)

(** The [if]/[elif] chain of [generate_question]: which handler is called. *)
Definition select (question_idx : Z) : Domain :=
  if (1 <=? question_idx) && (question_idx <=? 15) then Numeric
  else if (16 <=? question_idx) && (question_idx <=? 25) then Logic
  else if (26 <=? question_idx) && (question_idx <=? 35) then Arrows
  else if (36 <=? question_idx) && (question_idx <=? 45) then Letter
  else if (46 <=? question_idx) && (question_idx <=? 55) then Word
  else if (56 <=? question_idx) && (question_idx <=? 70) then Raven
  else if (71 <=? question_idx) && (question_idx <=? 80) then BaseConv
  else if (81 <=? question_idx) && (question_idx <=? 90) then Shape
  else SelfRef.

(** The call made in each branch of the chain. *)
Definition call (h : Domain) : Z -> Z -> outcome Question :=
  match h with
  | Numeric => generate_numeric_question
  | Logic => generate_logic_question
  | Arrows => generate_spatial_like_question
  | Letter => generate_letter_question
  | Word => generate_word_question
  | Raven => generate_raven_matrix_question
  | BaseConv => generate_base_conversion_question
  | Shape => generate_shape_sequence_question
  | SelfRef => generate_self_referential_question
  end.

Definition generate_question (test_id question_idx : Z) : outcome Question :=
  if negb ((1 <=? test_id) && (test_id <=? NUM_TESTS)) then
    Raises (ValueError ("test_id must be in 1.." +:+ str NUM_TESTS))
  else if negb ((1 <=? question_idx) && (question_idx <=? QUESTIONS_PER_TEST)) then
    Raises (ValueError ("question_idx must be in 1.." +:+ str QUESTIONS_PER_TEST))
  else call (select question_idx) test_id question_idx.

Definition generate_test (test_id : Z) : outcome (list Question) :=
  mapM (fun q => generate_question test_id q) (range 1 (QUESTIONS_PER_TEST + 1)).

(** [iter_all_tests] run to its end: the pairs it yields, in the order it
    yields them. *)
Definition iter_all_tests : outcome (list (Z * list Question)) :=
  mapM (fun t => qs ← generate_test t; Returns (t, qs)) (range 1 (NUM_TESTS + 1)).

End Engine.

(** ** The solver, [vireon_mensa_solver.py] *)

Module Solver.
Import Py.

(** [from vireon_mensa_engine import NUM_TESTS, QUESTIONS_PER_TEST]. *)
Definition NUM_TESTS : Z := Engine.NUM_TESTS.
Definition QUESTIONS_PER_TEST : Z := Engine.QUESTIONS_PER_TEST.

(** *** Helpers shared across domains *)

Definition _ensure_valid_indices (test_id question_idx : Z) : outcome unit :=
  if negb ((1 <=? test_id) && (test_id <=? NUM_TESTS)) then
    Raises (ValueError ("test_id must be in 1.." +:+ str NUM_TESTS))
  else if negb ((1 <=? question_idx) && (question_idx <=? QUESTIONS_PER_TEST)) then
    Raises (ValueError ("question_idx must be in 1.." +:+ str QUESTIONS_PER_TEST))
  else Returns tt.

(** The [for d in (2, 3, 5, 7)] loop with its early [return False]. *)
Fixpoint _is_prime_like_loop (ds : list Z) (n : Z) : bool :=
  match ds with
  | [] => true
  | d :: ds' => if n mod d =? 0 then false else _is_prime_like_loop ds' n
  end.

Definition _is_prime_like (n : Z) : bool := _is_prime_like_loop [2; 3; 5; 7] n.

(** The [while f <= r] loop of [_is_prime]. *)
Fixpoint _is_prime_loop (fuel : nat) (n r f : Z) : outcome bool :=
  if f <=? r then
    match fuel with
    | O => Diverges
    | S fuel' =>
        rem ← mod_ n f;
        if rem =? 0 then Returns false
        else _is_prime_loop fuel' n r (f + 2)
    end
  else Returns true.

(** [int(n ** 0.5)] is a floating-point square root truncated to an
    integer; it is embedded as the integer square root, which it equals
    on the arguments [1..100] the solver passes.  [f] grows by 2 from 3,
    so [r] iterations are enough. *)
Definition _is_prime (n : Z) : outcome bool :=
  if n <? 2 then Returns false
  else if n mod 2 =? 0 then Returns (n =? 2)
  else
    let f := 3 in
    let r := Z.sqrt n in
    _is_prime_loop (Z.to_nat r) n r f.

(** *** Domain 1: numeric sequences (Q 1-15) *)

(** The seed parameters re-derived by [_solve_numeric]:
    [(base, alpha, beta, even_offset, odd_offset)]. *)
Definition numeric_params (test_id question_idx : Z) : Z * Z * Z * Z * Z :=
  let local := question_idx in
  let base := (3 * test_id + 5 * local) mod 97 + 10 in
  let alpha := (2 * test_id + local) mod 11 + 1 in
  let beta := (test_id + 3 * local) mod 7 + 1 in
  let even_offset := (test_id * local) mod 9 in
  let odd_offset := (test_id + local) mod 9 in
  (base, alpha, beta, even_offset, odd_offset).

(** The loop of [_solve_numeric]: the list [seq]. *)
Definition numeric_seq (test_id question_idx : Z) : list Z :=
  let length := 7 in
  let '(base, alpha, beta, even_offset, odd_offset) :=
    numeric_params test_id question_idx in
  map (fun n =>
         let k := n + 1 in
         let val := base + alpha * k + beta * (k * k) in
         if k mod 2 =? 0 then val + even_offset else val + odd_offset)
      (range 0 length).

Definition _solve_numeric (test_id question_idx : Z) : outcome Answer :=
  let local := question_idx in
  let seq := numeric_seq test_id question_idx in
  let missing_pos := 2 + (local mod 3) in
  v ← getitem seq missing_pos;
  Returns (AInt v).

(** *** Domain 2: logic propositions (Q 16-25) *)

Definition _solve_logic (test_id question_idx : Z) : outcome Answer :=
  let local := question_idx - 15 in
  let pattern_type := (test_id + local) mod 4 in
  let p := (test_id mod 2 =? 0) in
  let q := (local mod 3 =? 0) in
  let r := _is_prime_like (test_id + local) in
  let val :=
    if pattern_type =? 0 then (p && q) || (negb r)
    else if pattern_type =? 1 then (negb (p && r)) || (xorb q r)
    else if pattern_type =? 2 then (xorb p q) && (q || r)
    else (negb (p || q)) || ((negb p) && r) in
  Returns (AStr (if val then "TRUE" else "FALSE")).

(** *** Domain 3: dual arrow cycles (Q 26-35) *)

Definition _solve_arrows (test_id question_idx : Z) : outcome Answer :=
  let local := question_idx - 25 in
  let primary : list string := ["↑"; "→"; "↓"; "←"]%string in
  let secondary : list string := ["↖"; "↗"; "↘"; "↙"]%string in
  let N1 := 7 * test_id + 11 * local in
  let N2 := 5 * test_id - 3 * local in
  A ← getitem primary ((N1 - 1) mod 4);
  B ← getitem secondary ((N2 - 1) mod 4);
  Returns (AStr ("(" +:+ A +:+ ", " +:+ B +:+ ")")).

(** *** Domain 4: letter analogies (Q 36-45) *)

(** The inner function [enc] of [_solve_letter]. *)
Definition enc (i : Z) : string := chr (ord_A + (i mod 26)).

(** The coefficients and inputs re-derived by [_solve_letter]:
    [(a, b, x1, x2)]. *)
Definition letter_params (test_id question_idx : Z) : Z * Z * Z * Z :=
  let local := question_idx - 35 in
  let a := (2 * test_id + 1) mod 26 in
  let a := if a mod 2 =? 0 then (a + 1) mod 26 else a in
  let b := (3 * local + test_id) mod 26 in
  let x1 := (5 * test_id + local) mod 26 in
  let x2 := (x1 + 13) mod 26 in
  (a, b, x1, x2).

Definition _solve_letter (test_id question_idx : Z) : outcome Answer :=
  let '(a, b, x1, x2) := letter_params test_id question_idx in
  let answer_index := (a * x2 + b) mod 26 in
  Returns (AStr (enc answer_index)).

(** *** Domain 5: word-style arithmetic stories (Q 46-55) *)

(** The story's quantities re-derived by [_solve_word]:
    [(base_items, daily_gain, days, group, bonus_factor, loss)]. *)
Definition word_params (test_id question_idx : Z)
  : outcome (Z * Z * Z * Z * Z * Z) :=
  let local := question_idx - 45 in
  let base_items := 4 + (test_id mod 9) in
  let daily_gain := 1 + (local mod 5) in
  let days := 3 + ((test_id + local) mod 4) in
  let group := 2 + (test_id mod 4) in
  let bonus_factor := 1 + ((test_id * local) mod 3) in
  loss ← mod_ (base_items + daily_gain) (group + 1);
  Returns (base_items, daily_gain, days, group, bonus_factor, loss).

Definition _solve_word (test_id question_idx : Z) : outcome Answer :=
  '(base_items, daily_gain, days, group, bonus_factor, loss) ←
    word_params test_id question_idx;
  let total := base_items + daily_gain * days in
  let total := total * bonus_factor in
  let total := total - loss in
  v ← floordiv total group;
  Returns (AInt v).

(** *** Domain 6: Raven-style 3x3 matrices (Q 56-70) *)

Definition shapes : list string := ["▲"; "■"; "●"; "★"]%string.
Definition orientations : list string := ["0°"; "90°"; "180°"; "270°"]%string.
Definition fills : list string := ["○"; "◐"; "●"]%string.

(** The inner function [cell_symbol], closed over the three bases. *)
Definition cell_symbol (base_idx base_orient base_fill r c : Z) : outcome string :=
  s_idx ← mod_ (base_idx + r + 2 * c) (Z.of_nat (length shapes));
  let o_idx := (base_orient + 2 * r + c) mod 4 in
  let f_idx := (base_fill + r + c) mod 3 in
  s ← getitem shapes s_idx;
  f ← getitem fills f_idx;
  o ← getitem orientations o_idx;
  Returns (s +:+ f +:+ "(" +:+ o +:+ ")").

Definition _solve_raven (test_id question_idx : Z) : outcome Answer :=
  let local := question_idx - 55 in
  base_idx ← mod_ (test_id + local) (Z.of_nat (length shapes));
  let base_orient := (2 * test_id + local) mod 4 in
  let base_fill := (3 * test_id + 2 * local) mod 3 in
  let missing_mode := (test_id + local) mod 3 in
  let '(mr, mc) :=
    if missing_mode =? 0 then (2, 2)
    else if missing_mode =? 1 then (1, 1)
    else (0, 2) in
  s ← cell_symbol base_idx base_orient base_fill mr mc;
  Returns (AStr s).

(** *** Domain 7: base conversion puzzles (Q 71-80) *)

Definition _solve_base (test_id question_idx : Z) : outcome Answer :=
  let local := question_idx - 70 in
  let N := 200 + 17 * test_id + 11 * local in
  Returns (AInt N).

(** *** Domain 8: shape sequences (Q 81-90) *)

(** The two moduli re-derived by [_solve_shape_sequence]. *)
Definition shape_moduli (test_id question_idx : Z) : Z * Z :=
  let local := question_idx - 80 in
  let modulus_A := 5 + ((test_id + local) mod 5) in
  let modulus_B := 6 + ((2 * test_id + local) mod 5) in
  (modulus_A, modulus_B).

Definition _solve_shape_sequence (test_id question_idx : Z) : outcome Answer :=
  let local := question_idx - 80 in
  let '(modulus_A, modulus_B) := shape_moduli test_id question_idx in
  r ← mod_ (test_id + 2 * local) modulus_A; let base_A := 1 + r in
  r ← mod_ (2 * test_id + 3 * local) modulus_B; let base_B := 1 + r in
  r ← mod_ (3 * test_id + local) modulus_A; let step_A := 1 + r in
  r ← mod_ (4 * test_id + 2 * local) modulus_B; let step_B := 1 + r in
  let k := 5 in
  a5 ← mod_ (base_A + (k - 1) * step_A) modulus_A;
  b5 ← mod_ (base_B + (k - 1) * step_B) modulus_B;
  let a5 := if a5 =? 0 then modulus_A else a5 in
  let b5 := if b5 =? 0 then modulus_B else b5 in
  Returns (APair a5 b5).

(** *** Domain 9: self-referential (Q 91-100) *)

Definition _basic_self_ref_digit_mode (test_id question_idx : Z) : Z * Z :=
  let local := question_idx - 90 in
  let digit := (test_id + local) mod 10 in
  let mode := (test_id + 2 * local) mod 4 in
  (digit, mode).

(** The inner function [has_digit]. *)
Definition has_digit (n d : Z) : bool := contains (str d) (str n).

(** One iteration of the counting loop: [count] after visiting [n]. *)
Definition self_ref_step (digit mode : Z) (count : outcome Z) (n : Z) : outcome Z :=
  count ← count;
  let has_d := has_digit n digit in
  cond ←
    (if mode =? 0 then Returns has_d
     else if mode =? 1 then Returns (has_d && (n mod 2 =? 0))
     else if mode =? 2 then
       (if has_d then _is_prime n else Returns false)
     else Returns (has_d || (n mod 9 =? 0)));
  Returns (if cond : bool then count + 1 else count).

Definition _self_ref_count_for_digit_mode (digit mode : Z) : outcome Z :=
  foldl (self_ref_step digit mode) (Returns 0) (range 1 (QUESTIONS_PER_TEST + 1)).

Definition _solve_self_referential (test_id question_idx : Z) : outcome Answer :=
  let '(digit, mode) := _basic_self_ref_digit_mode test_id question_idx in
  v ← _self_ref_count_for_digit_mode digit mode;
  Returns (AInt v).

(** *** Public API *)

(** The [if]/[elif] chain of [solve_question]: which handler is called. *)
Definition select (question_idx : Z) : Domain :=
  if (1 <=? question_idx) && (question_idx <=? 15) then Numeric
  else if (16 <=? question_idx) && (question_idx <=? 25) then Logic
  else if (26 <=? question_idx) && (question_idx <=? 35) then Arrows
  else if (36 <=? question_idx) && (question_idx <=? 45) then Letter
  else if (46 <=? question_idx) && (question_idx <=? 55) then Word
  else if (56 <=? question_idx) && (question_idx <=? 70) then Raven
  else if (71 <=? question_idx) && (question_idx <=? 80) then BaseConv
  else if (81 <=? question_idx) && (question_idx <=? 90) then Shape
  else SelfRef.

(** The call made in each branch of the chain. *)
Definition call (h : Domain) : Z -> Z -> outcome Answer :=
  match h with
  | Numeric => _solve_numeric
  | Logic => _solve_logic
  | Arrows => _solve_arrows
  | Letter => _solve_letter
  | Word => _solve_word
  | Raven => _solve_raven
  | BaseConv => _solve_base
  | Shape => _solve_shape_sequence
  | SelfRef => _solve_self_referential
  end.

Definition solve_question (test_id question_idx : Z) : outcome Answer :=
  _ ← _ensure_valid_indices test_id question_idx;
  call (select question_idx) test_id question_idx.

End Solver.

(** ** Specification-level notions *)

(** A key the spec calls valid. *)
Definition valid_key (test_id question_idx : Z) : Prop :=
  1 <= test_id <= 1000 /\ 1 <= question_idx <= 100.

(** The call returned a value. *)
Definition succeeds {A : Type} (o : outcome A) : Prop := exists v, o = Returns v.

(** The call raised the input-validation error (the spec's RangeError,
    Python's [ValueError] in the code). *)
Definition raises_validation {A : Type} (o : outcome A) : Prop :=
  exists msg, o = Raises (ValueError msg).

(** The band partition as the spec lists it:
    1-15, 16-25, 26-35, 36-45, 46-55, 56-70, 71-80, 81-90, 91-100. *)
Definition spec_bands : list (Z * Z * Domain) :=
  [ (1, 15, Numeric); (16, 25, Logic); (26, 35, Arrows); (36, 45, Letter);
    (46, 55, Word); (56, 70, Raven); (71, 80, BaseConv); (81, 90, Shape);
    (91, 100, SelfRef) ].

(** The domain whose band contains [question_idx], if any. *)
Definition spec_band (question_idx : Z) : option Domain :=
  match filter (fun '(lo, hi, _) => lo <= question_idx <= hi) spec_bands with
  | (_, _, d) :: _ => Some d
  | [] => None
  end.

(** The [domain] tag each generator handler writes in its question. *)
Definition domain_tag (d : Domain) : string :=
  match d with
  | Numeric => "numeric_sequence_hard"
  | Logic => "nested_logic_hard"
  | Arrows => "dual_arrow_cycle_hard"
  | Letter => "letter_analogy_hard"
  | Word => "word_arithmetic_hard"
  | Raven => "raven_matrix_hard"
  | BaseConv => "base_conversion_hard"
  | Shape => "shape_sequence_coupled_modulo_hard"
  | SelfRef => "self_referential_hard"
  end.

(** The local index: [question_idx] re-based to start at 1 in its band. *)
Definition local_index (d : Domain) (question_idx : Z) : Z :=
  match d with
  | Numeric => question_idx
  | Logic => question_idx - 15
  | Arrows => question_idx - 25
  | Letter => question_idx - 35
  | Word => question_idx - 45
  | Raven => question_idx - 55
  | BaseConv => question_idx - 70
  | Shape => question_idx - 80
  | SelfRef => question_idx - 90
  end.

(** What every handler's question records about its key. *)
Definition question_for (d : Domain) (t q : Z) (Q : Question) : Prop :=
  q_test_id Q = t /\ q_question_idx Q = q /\ q_domain Q = domain_tag d /\
  q_meta Q !! "local_index"%string = Some (MInt (local_index d q)).

(** The numeric domain's term [a_k] as the spec gives it, for
    [k = 1..7]. *)
Definition spec_numeric_term (test_id local k : Z) : Z :=
  let base := (3 * test_id + 5 * local) mod 97 + 10 in
  let alpha := (2 * test_id + local) mod 11 + 1 in
  let beta := (test_id + 3 * local) mod 7 + 1 in
  let parity_offset :=
    if Z.even k then (test_id * local) mod 9 else (test_id + local) mod 9 in
  base + alpha * k + beta * k ^ 2 + parity_offset.

(** The 7-term sequence [a_1 .. a_7] of the spec. *)
Definition spec_numeric_seq (test_id local : Z) : list Z :=
  map (spec_numeric_term test_id local) [1; 2; 3; 4; 5; 6; 7].

(** The spec's prime-like integers: no divisor in {2, 3, 5, 7}. *)
Definition spec_prime_like (n : Z) : Prop :=
  forall d, In d [2; 3; 5; 7] -> ~ (d | n).

(** The four templates of the logic domain, with IF-THEN read as
    material implication. *)
Definition spec_template (pattern_type : Z) (p q r : bool) : bool :=
  if pattern_type =? 0 then (p && q) || negb r
  else if pattern_type =? 1 then implb (p && r) (xorb q r)
  else if pattern_type =? 2 then (xorb p q) && (q || r)
  else implb (p || q) (negb p && r).

(** The two arrow cycles of the spec. *)
Definition spec_primary : list string := ["↑"; "→"; "↓"; "←"]%string.
Definition spec_secondary : list string := ["↖"; "↗"; "↘"; "↙"]%string.

(** The alphabet, A at index 0 and Z at index 25. *)
Definition alphabet : list string :=
  ["A"; "B"; "C"; "D"; "E"; "F"; "G"; "H"; "I"; "J"; "K"; "L"; "M";
   "N"; "O"; "P"; "Q"; "R"; "S"; "T"; "U"; "V"; "W"; "X"; "Y"; "Z"]%string.

(** The letter domain's coefficient [a] as the spec gives it:
    [(2 test_id + 1) mod 26], bumped by 1 if that is even. *)
Definition spec_letter_a (test_id : Z) : Z :=
  let a := (2 * test_id + 1) mod 26 in
  if Z.even a then a + 1 else a.



(** The message of the error raised for a key, [test_id] being checked
    before [question_idx]. *)
Definition validation_message (test_id question_idx : Z) : option string :=
  if decide (1 <= test_id <= 1000) then
    if decide (1 <= question_idx <= 100) then None
    else Some "question_idx must be in 1..100"%string
  else Some "test_id must be in 1..1000"%string.

(** The value of a character as a digit: its index in the renderer's
    alphabet 0-9, A-Z. *)
Definition digit_value (c : ascii) : option Z :=
  Z.of_nat <$> String.index 0 (String c EmptyString) Engine.digits.

(** Reading digits most significant first, continuing from [acc]; a
    character that is not a digit below [base] makes the reading fail. *)
Fixpoint parse_digits (base acc : Z) (s : string) : option Z :=
  match s with
  | EmptyString => Some acc
  | String c s' =>
      match digit_value c with
      | Some d => if d <? base then parse_digits base (acc * base + d) s' else None
      | None => None
      end
  end.

(** The integer a non-empty string of digits denotes in [base]. *)
Definition parse_base (base : Z) (s : string) : option Z :=
  match s with
  | EmptyString => None
  | _ => parse_digits base 0 s
  end.

(** [d] is one of the decimal digits of [n], for [n] of at most three
    digits: its units digit, or its tens or hundreds digit when it has
    one. *)
Definition spec_has_digit (n d : Z) : bool :=
  existsb (fun k => (0 <? n / 10 ^ k) && ((n / 10 ^ k) mod 10 =? d)) [0; 1; 2].

(** The condition a mode of the self-referential domain counts. *)
Definition spec_self_ref_cond (digit mode n : Z) : Prop :=
  if mode =? 0 then spec_has_digit n digit = true
  else if mode =? 1 then spec_has_digit n digit = true /\ n mod 2 = 0
  else if mode =? 2 then spec_has_digit n digit = true /\ Z.prime n
  else spec_has_digit n digit = true \/ (9 | n).

(** A grid with the cell in row [mr], column [mc] replaced by the
    placeholder. *)
Definition hidden_grid (g : list (list string)) (mr mc : Z) : list (list string) :=
  alter (fun row => <[Z.to_nat mc := " ? "%string]> row) (Z.to_nat mr) g.

(** The cell of a grid in row [r], column [c]. *)
Definition grid_cell (g : list (list string)) (r c : Z) : option string :=
  g !! Z.to_nat r ≫= fun row => row !! Z.to_nat c.

(** The count of one symbol in figure [k]: the residue of
    [base + (k - 1) step], with 0 replaced by the modulus. *)
Definition spec_shape_count (base step modulus k : Z) : Z :=
  let r := (base + (k - 1) * step) mod modulus in
  if r =? 0 then modulus else r.

(** ** Recomputing the answer from the meta *)









(** ** Facts about the Python primitives *)

Section PyFacts.
Import Py.

Lemma mod__nonzero (a b : Z) : b <> 0 -> mod_ a b = Returns (a mod b).
Proof. intros Hb. unfold mod_. destruct (Z.eqb_spec b 0); [lia | done]. Qed.

Lemma floordiv_nonzero (a b : Z) : b <> 0 -> floordiv a b = Returns (a / b).
Proof. intros Hb. unfold floordiv. destruct (Z.eqb_spec b 0); [lia | done]. Qed.

Lemma subscript_in_range (n : nat) (i : Z) :
  0 <= i < Z.of_nat n -> subscript n i = Returns (Z.to_nat i).
Proof.
  intros Hi. unfold subscript.
  destruct (Z.ltb_spec i 0); [lia |].
  destruct (Z.leb_spec 0 i); [| lia].
  destruct (Z.ltb_spec i (Z.of_nat n)); [done | lia].
Qed.

Lemma getitem_in_range {A : Type} (l : list A) (i : Z) :
  0 <= i < Z.of_nat (length l) ->
  exists x, l !! Z.to_nat i = Some x /\ getitem l i = Returns x.
Proof.
  intros Hi. unfold getitem. rewrite subscript_in_range by done. simpl.
  destruct (lookup_lt_is_Some_2 l (Z.to_nat i)) as [x Hx]; [lia |].
  exists x. by rewrite Hx.
Qed.

Lemma range_0_3 : range 0 3 = [0; 1; 2].
Proof. reflexivity. Qed.

Lemma range_0_7 : range 0 7 = [0; 1; 2; 3; 4; 5; 6].
Proof. reflexivity. Qed.

End PyFacts.

(** ** The dispatchers *)

(** Reduce the binds of the outcome monad whose left side is a value. *)
Ltac mstep := cbn [mbind outcome_bind mret outcome_ret].

(** Decide every integer comparison of the goal from the hypotheses. *)
Ltac decide_leb :=
  repeat match goal with
         | |- context [?a <=? ?b] =>
             first [ rewrite (proj2 (Z.leb_le a b)) by lia
                   | rewrite (proj2 (Z.leb_gt a b)) by lia ]
         | |- context [?a <? ?b] =>
             first [ rewrite (proj2 (Z.ltb_lt a b)) by lia
                   | rewrite (proj2 (Z.ltb_ge a b)) by lia ]
         | |- context [?a =? ?b] =>
             first [ rewrite (proj2 (Z.eqb_eq a b)) by lia
                   | rewrite (proj2 (Z.eqb_neq a b)) by lia ]
         end.

Lemma spec_band_select (q : Z) :
  1 <= q <= 100 -> spec_band q = Some (Engine.select q).
Proof.
  intros Hq. unfold spec_band, spec_bands, Engine.select.
  repeat (rewrite filter_cons; case_decide; [decide_leb; reflexivity |]).
  lia.
Qed.

Lemma select_agree (q : Z) : Engine.select q = Solver.select q.
Proof. reflexivity. Qed.

(** ** Input validation *)

Lemma generate_question_valid (t q : Z) :
  valid_key t q ->
  Engine.generate_question t q = Engine.call (Engine.select q) t q.
Proof.
  intros [Ht Hq]. unfold Engine.generate_question, Engine.NUM_TESTS,
    Engine.QUESTIONS_PER_TEST. decide_leb. reflexivity.
Qed.

Lemma solve_question_valid (t q : Z) :
  valid_key t q ->
  Solver.solve_question t q = Solver.call (Solver.select q) t q.
Proof.
  intros [Ht Hq]. unfold Solver.solve_question, Solver._ensure_valid_indices,
    Solver.NUM_TESTS, Solver.QUESTIONS_PER_TEST, Engine.NUM_TESTS,
    Engine.QUESTIONS_PER_TEST. decide_leb. reflexivity.
Qed.

Lemma generate_question_invalid (t q : Z) :
  ~ valid_key t q -> raises_validation (Engine.generate_question t q).
Proof.
  intros Hn. unfold Engine.generate_question, Engine.NUM_TESTS,
    Engine.QUESTIONS_PER_TEST, raises_validation, valid_key in *.
  destruct (Z.leb_spec 1 t), (Z.leb_spec t 1000); simpl; eauto.
  destruct (Z.leb_spec 1 q), (Z.leb_spec q 100); simpl; eauto. lia.
Qed.

Lemma solve_question_invalid (t q : Z) :
  ~ valid_key t q -> raises_validation (Solver.solve_question t q).
Proof.
  intros Hn. unfold Solver.solve_question, Solver._ensure_valid_indices,
    Solver.NUM_TESTS, Solver.QUESTIONS_PER_TEST, Engine.NUM_TESTS,
    Engine.QUESTIONS_PER_TEST, raises_validation, valid_key in *.
  destruct (Z.leb_spec 1 t), (Z.leb_spec t 1000); simpl; eauto.
  destruct (Z.leb_spec 1 q), (Z.leb_spec q 100); simpl; eauto. lia.
Qed.

Lemma succeeds_not_raises {A : Type} (o : outcome A) :
  succeeds o -> ~ raises_validation o.
Proof. intros [v ->] [msg Hm]. discriminate. Qed.

(** ** Termination and success of the base renderer *)

Section ToBase.
Import Py.

Lemma string_get_lt (s : string) (j : nat) :
  (j < String.length s)%nat -> exists c, String.get j s = Some c.
Proof.
  revert j. induction s as [| c s IH]; intros j Hj; simpl in *; [lia |].
  destruct j as [| j]; [eauto |]. apply IH. lia.
Qed.

Lemma getchar_succeeds (s : string) (i : Z) :
  0 <= i < Z.of_nat (String.length s) -> succeeds (getchar s i).
Proof.
  intros Hi. unfold getchar. rewrite subscript_in_range by done. simpl.
  destruct (string_get_lt s (Z.to_nat i)) as [c Hc]; [lia |].
  rewrite Hc. by eexists.
Qed.

(** With a base between 2 and 36 the loop ends within [x] iterations and
    every digit lookup is in range. *)
Lemma _to_base_loop_returns (fuel : nat) (base x : Z) (out : string) :
  2 <= base <= 36 -> (Z.to_nat x <= fuel)%nat ->
  succeeds (Engine._to_base_loop fuel base x out).
Proof.
  intros Hb. revert x out.
  induction fuel as [| fuel IH]; intros x out Hx; simpl.
  - destruct (Z.ltb_spec 0 x); [lia | by eexists].
  - destruct (Z.ltb_spec 0 x); [| by eexists].
    rewrite mod__nonzero by lia. simpl.
    destruct (getchar_succeeds Engine.digits (x mod base)) as [d Hd].
    { pose proof (Z.mod_pos_bound x base). simpl. lia. }
    rewrite Hd. simpl. rewrite floordiv_nonzero by lia. simpl.
    apply IH.
    assert (x / base < x) by (apply Z.div_lt; lia).
    assert (0 <= x / base) by (apply Z.div_pos; lia). lia.
Qed.

Lemma _to_base_returns (n base : Z) :
  2 <= base <= 36 -> succeeds (Engine._to_base n base).
Proof.
  intros Hb. unfold Engine._to_base.
  destruct (n =? 0); [by eexists |].
  by apply _to_base_loop_returns.
Qed.

End ToBase.

Lemma generate_numeric_question_returns (t q : Z) :
  exists Q, Engine.generate_numeric_question t q = Returns Q /\
            question_for Numeric t q Q.
Proof. eexists. split; [reflexivity | repeat split]. Qed.

Lemma generate_word_question_returns (t q : Z) :
  exists Q, Engine.generate_word_question t q = Returns Q /\
            question_for Word t q Q.
Proof.
  unfold Engine.generate_word_question, Engine.word_params.
  rewrite mod__nonzero by (pose proof (Z.mod_pos_bound t 4); lia).
  simpl. eexists. split; [reflexivity |]. repeat split.
Qed.

(** ** The generator returns on every key of each band *)

Section GeneratorReturns.
Import Py.

Lemma cell_symbol_succeeds (bi bo bf r c : Z) :
  succeeds (Engine.cell_symbol bi bo bf r c).
Proof.
  unfold Engine.cell_symbol.
  rewrite mod__nonzero by done. mstep.
  change (Z.of_nat (length Engine.shapes)) with 4.
  destruct (getitem_in_range Engine.shapes ((bi + r + 2 * c) mod 4)) as (s & _ & ->).
  { pose proof (Z.mod_pos_bound (bi + r + 2 * c) 4). simpl. lia. }
  mstep.
  destruct (getitem_in_range Engine.fills ((bf + r + c) mod 3)) as (f & _ & ->).
  { pose proof (Z.mod_pos_bound (bf + r + c) 3). simpl. lia. }
  mstep.
  destruct (getitem_in_range Engine.orientations ((bo + 2 * r + c) mod 4)) as (o & _ & ->).
  { pose proof (Z.mod_pos_bound (bo + 2 * r + c) 4). simpl. lia. }
  mstep. by eexists.
Qed.

Lemma raven_row_returns (bi bo bf r : Z) :
  exists a b c,
    mapM (fun c => Engine.cell_symbol bi bo bf r c) (range 0 3) = Returns [a; b; c].
Proof.
  destruct (cell_symbol_succeeds bi bo bf r 0) as [a Ha].
  destruct (cell_symbol_succeeds bi bo bf r 1) as [b Hb].
  destruct (cell_symbol_succeeds bi bo bf r 2) as [c Hc].
  exists a, b, c. rewrite range_0_3. cbn [mapM]. rewrite Ha, Hb, Hc. reflexivity.
Qed.

Lemma raven_grid_returns (bi bo bf : Z) :
  exists a0 b0 c0 a1 b1 c1 a2 b2 c2,
    mapM (fun r => mapM (fun c => Engine.cell_symbol bi bo bf r c) (range 0 3))
         (range 0 3)
    = Returns [[a0; b0; c0]; [a1; b1; c1]; [a2; b2; c2]].
Proof.
  destruct (raven_row_returns bi bo bf 0) as (a0 & b0 & c0 & H0).
  destruct (raven_row_returns bi bo bf 1) as (a1 & b1 & c1 & H1).
  destruct (raven_row_returns bi bo bf 2) as (a2 & b2 & c2 & H2).
  exists a0, b0, c0, a1, b1, c1, a2, b2, c2.
  set (row := fun r => mapM (fun c => Engine.cell_symbol bi bo bf r c) (range 0 3)).
  change (row 0 = Returns [a0; b0; c0]) in H0.
  change (row 1 = Returns [a1; b1; c1]) in H1.
  change (row 2 = Returns [a2; b2; c2]) in H2.
  rewrite range_0_3. cbn [mapM]. rewrite H0, H1, H2. reflexivity.
Qed.

Lemma generate_raven_matrix_question_returns (t q : Z) :
  exists Q, Engine.generate_raven_matrix_question t q = Returns Q /\
            question_for Raven t q Q.
Proof.
  unfold Engine.generate_raven_matrix_question.
  rewrite mod__nonzero by done. mstep.
  destruct (raven_grid_returns
              ((t + (q - 55)) mod Z.of_nat (length Engine.shapes))
              ((2 * t + (q - 55)) mod 4) ((3 * t + 2 * (q - 55)) mod 3))
    as (a0 & b0 & c0 & a1 & b1 & c1 & a2 & b2 & c2 & ->).
  mstep.
  destruct (getitem_in_range Engine.hints ((t + 2 * (q - 55)) mod 4))
    as (hint & _ & Hhint).
  { pose proof (Z.mod_pos_bound (t + 2 * (q - 55)) 4). simpl. lia. }
  destruct ((t + (q - 55)) mod 3 =? 0); [| destruct ((t + (q - 55)) mod 3 =? 1)];
    cbn -[Engine.hints Z.modulo Z.add Z.mul Z.sub append str insert]; rewrite Hhint; mstep;
    (eexists; split; [reflexivity | repeat split]).
Qed.

Lemma base_params_bounds (t q : Z) :
  let '(base_x, base_y, base_z) := Engine.base_params t q in
  5 <= base_x <= 16 /\ 5 <= base_y <= 16 /\ 5 <= base_z <= 16.
Proof.
  unfold Engine.base_params.
  pose proof (Z.mod_pos_bound (t + (q - 70)) 12).
  pose proof (Z.mod_pos_bound (2 * t + (q - 70)) 12).
  pose proof (Z.mod_pos_bound (3 * t + (q - 70)) 12).
  pose proof (Z.mod_pos_bound (t + 2 * (q - 70)) 12).
  repeat match goal with |- context [?a =? ?b] => destruct (Z.eqb_spec a b) end; lia.
Qed.

Lemma generate_base_conversion_question_returns (t q : Z) :
  exists Q, Engine.generate_base_conversion_question t q = Returns Q /\
            question_for BaseConv t q Q.
Proof.
  unfold Engine.generate_base_conversion_question.
  pose proof (base_params_bounds t q) as Hb.
  destruct (Engine.base_params t q) as [[bx by_] bz].
  destruct Hb as (Hx & Hy & Hz).
  destruct (_to_base_returns (Engine.base_N t q) bx) as [rx ->]; [lia |].
  destruct (_to_base_returns (Engine.base_N t q) by_) as [ry ->]; [lia |].
  destruct (_to_base_returns (Engine.base_N t q) bz) as [rz ->]; [lia |].
  mstep. eexists. split; [reflexivity | repeat split].
Qed.

Lemma shape_moduli_bounds (t q : Z) :
  let '(modulus_A, modulus_B) := Engine.shape_moduli t q in
  5 <= modulus_A <= 9 /\ 6 <= modulus_B <= 10.
Proof.
  unfold Engine.shape_moduli.
  pose proof (Z.mod_pos_bound (t + (q - 80)) 5).
  pose proof (Z.mod_pos_bound (2 * t + (q - 80)) 5). lia.
Qed.

Lemma generate_shape_sequence_question_returns (t q : Z) :
  exists Q, Engine.generate_shape_sequence_question t q = Returns Q /\
            question_for Shape t q Q /\
            let '(modulus_A, modulus_B) := Engine.shape_moduli t q in
            q_meta Q !! "modulus_A"%string = Some (MInt modulus_A) /\
            q_meta Q !! "modulus_B"%string = Some (MInt modulus_B).
Proof.
  unfold Engine.generate_shape_sequence_question.
  pose proof (shape_moduli_bounds t q) as Hm.
  destruct (Engine.shape_moduli t q) as [mA mB]. destruct Hm as [HA HB].
  repeat (rewrite mod__nonzero by lia; mstep).
  match goal with |- context [getitem ?l ((t + (q - 80)) mod 3)] =>
    destruct (getitem_in_range l ((t + (q - 80)) mod 3)) as (sA & _ & ->)
  end.
  { pose proof (Z.mod_pos_bound (t + (q - 80)) 3). simpl. lia. }
  mstep.
  match goal with |- context [getitem ?l ((2 * t + (q - 80)) mod 3)] =>
    destruct (getitem_in_range l ((2 * t + (q - 80)) mod 3)) as (sB & _ & ->)
  end.
  { pose proof (Z.mod_pos_bound (2 * t + (q - 80)) 3). simpl. lia. }
  mstep.
  change (range 1 5) with [1; 2; 3; 4]. cbn [mapM].
  repeat (rewrite mod__nonzero by lia; mstep).
  change (range 0 4) with [0; 1; 2; 3].
  cbn [mapM fmap list_fmap fst snd getitem length subscript Z.of_nat
       Pos.of_succ_nat Pos.succ Z.ltb Z.leb Z.compare Pos.compare Pos.compare_cont
       andb Z.to_nat Pos.to_nat Pos.iter_op Nat.add lookup list_lookup
       mbind outcome_bind mret outcome_ret].
  eexists. split; [reflexivity | repeat split].
Qed.
End GeneratorReturns.

(** ** The solver returns on every key of each band *)

Section SolverReturns.
Import Py.

Lemma solver_numeric_seq (t q : Z) :
  Solver.numeric_seq t q = spec_numeric_seq t q.
Proof.
  unfold Solver.numeric_seq, Solver.numeric_params, spec_numeric_seq.
  rewrite range_0_7. cbn [map]. unfold spec_numeric_term.
  repeat (f_equal; [simpl; lia |]). reflexivity.
Qed.

Lemma engine_numeric_seq (t q : Z) :
  Engine.numeric_seq t q = spec_numeric_seq t q.
Proof.
  unfold Engine.numeric_seq, Engine.numeric_params, spec_numeric_seq.
  rewrite range_0_7. cbn [map]. unfold spec_numeric_term.
  repeat (f_equal; [simpl; lia |]). reflexivity.
Qed.

Lemma _solve_numeric_returns (t q : Z) :
  exists v, Solver._solve_numeric t q = Returns (AInt v) /\
            spec_numeric_seq t q !! Z.to_nat (2 + q mod 3) = Some v.
Proof.
  unfold Solver._solve_numeric. rewrite solver_numeric_seq.
  destruct (getitem_in_range (spec_numeric_seq t q) (2 + q mod 3)) as (v & Hv & ->).
  { pose proof (Z.mod_pos_bound q 3). simpl. lia. }
  mstep. eauto.
Qed.

Lemma _solve_arrows_returns (t q : Z) :
  let N1 := 7 * t + 11 * (q - 25) in
  let N2 := 5 * t - 3 * (q - 25) in
  exists A B,
    Solver._solve_arrows t q = Returns (AStr ("(" +:+ A +:+ ", " +:+ B +:+ ")")) /\
    spec_primary !! Z.to_nat ((N1 - 1) mod 4) = Some A /\
    spec_secondary !! Z.to_nat ((N2 - 1) mod 4) = Some B.
Proof.
  intros N1 N2. unfold Solver._solve_arrows. fold N1 N2.
  destruct (getitem_in_range spec_primary ((N1 - 1) mod 4)) as (A & HA & EA).
  { pose proof (Z.mod_pos_bound (N1 - 1) 4). simpl. lia. }
  destruct (getitem_in_range spec_secondary ((N2 - 1) mod 4)) as (B & HB & EB).
  { pose proof (Z.mod_pos_bound (N2 - 1) 4). simpl. lia. }
  exists A, B. unfold spec_primary in EA. unfold spec_secondary in EB.
  rewrite EA. mstep. rewrite EB. mstep. auto.
Qed.

Lemma solver_word_params_returns (t q : Z) :
  exists base_items daily_gain days group bonus_factor loss,
    Solver.word_params t q
    = Returns (base_items, daily_gain, days, group, bonus_factor, loss) /\
    Engine.word_params t q
    = Returns (base_items, daily_gain, days, group, bonus_factor, loss) /\
    2 <= group <= 5.
Proof.
  unfold Solver.word_params, Engine.word_params.
  pose proof (Z.mod_pos_bound t 4).
  rewrite mod__nonzero by lia. mstep.
  do 6 eexists. split; [reflexivity |]. split; [reflexivity | lia].
Qed.

Lemma _solve_word_returns (t q : Z) : succeeds (Solver._solve_word t q).
Proof.
  unfold Solver._solve_word.
  destruct (solver_word_params_returns t q)
    as (bi & dg & days & group & bf & loss & -> & _ & Hg).
  mstep. rewrite floordiv_nonzero by lia. mstep. by eexists.
Qed.

Lemma solver_cell_symbol_eq (bi bo bf r c : Z) :
  Solver.cell_symbol bi bo bf r c = Engine.cell_symbol bi bo bf r c.
Proof. reflexivity. Qed.

Lemma _solve_raven_returns (t q : Z) : succeeds (Solver._solve_raven t q).
Proof.
  unfold Solver._solve_raven. rewrite mod__nonzero by done. mstep.
  destruct ((t + (q - 55)) mod 3 =? 0); [| destruct ((t + (q - 55)) mod 3 =? 1)];
    rewrite solver_cell_symbol_eq;
    match goal with |- context [Engine.cell_symbol ?a ?b ?c ?d ?e] =>
      destruct (cell_symbol_succeeds a b c d e) as [s ->]
    end; mstep; by eexists.
Qed.

Lemma _solve_shape_sequence_returns (t q : Z) :
  succeeds (Solver._solve_shape_sequence t q).
Proof.
  unfold Solver._solve_shape_sequence.
  pose proof (shape_moduli_bounds t q) as Hm.
  change (Solver.shape_moduli t q) with (Engine.shape_moduli t q).
  destruct (Engine.shape_moduli t q) as [mA mB]. destruct Hm as [HA HB].
  repeat (rewrite mod__nonzero by lia; mstep). by eexists.
Qed.

(** Every digit and mode the solver can derive gives a count. *)
Lemma _self_ref_count_returns (digit mode : Z) :
  0 <= digit < 10 -> 0 <= mode < 4 ->
  succeeds (Solver._self_ref_count_for_digit_mode digit mode).
Proof.
  intros Hd Hm.
  assert (digit = 0 \/ digit = 1 \/ digit = 2 \/ digit = 3 \/ digit = 4 \/
          digit = 5 \/ digit = 6 \/ digit = 7 \/ digit = 8 \/ digit = 9)
    as Hdc by lia.
  assert (mode = 0 \/ mode = 1 \/ mode = 2 \/ mode = 3) as Hmc by lia.
  repeat (destruct Hdc as [-> | Hdc]); try subst digit;
    repeat (destruct Hmc as [-> | Hmc]); try subst mode;
    vm_compute; by eexists.
Qed.

Lemma _solve_self_referential_returns (t q : Z) :
  succeeds (Solver._solve_self_referential t q).
Proof.
  unfold Solver._solve_self_referential, Solver._basic_self_ref_digit_mode.
  destruct (_self_ref_count_returns ((t + (q - 90)) mod 10) ((t + 2 * (q - 90)) mod 4))
    as [v ->].
  - apply Z.mod_pos_bound. lia.
  - apply Z.mod_pos_bound. lia.
  - mstep. by eexists.
Qed.

(** [solve_question] returns an answer on every valid key. *)
Lemma solve_question_succeeds (t q : Z) :
  valid_key t q -> succeeds (Solver.solve_question t q).
Proof.
  intros Hv. rewrite solve_question_valid by done.
  destruct (Solver.select q); simpl.
  - destruct (_solve_numeric_returns t q) as (v & -> & _). by eexists.
  - by eexists.
  - destruct (_solve_arrows_returns t q) as (A & B & -> & _). by eexists.
  - unfold Solver._solve_letter. destruct (Solver.letter_params t q) as [[[a b] x1] x2].
    by eexists.
  - apply _solve_word_returns.
  - apply _solve_raven_returns.
  - by eexists.
  - apply _solve_shape_sequence_returns.
  - apply _solve_self_referential_returns.
Qed.

End SolverReturns.

(** [generate_question] returns a question on every valid key, tagged
    with the domain the dispatcher selected and carrying the local index. *)
Lemma generate_question_returns (t q : Z) :
  valid_key t q ->
  exists Q, Engine.generate_question t q = Returns Q /\
            question_for (Engine.select q) t q Q.
Proof.
  intros Hv. rewrite generate_question_valid by done.
  destruct (Engine.select q); simpl.
  - apply generate_numeric_question_returns.
  - eexists. split; [reflexivity | repeat split].
  - eexists. split; [reflexivity | repeat split].
  - unfold Engine.generate_letter_question.
    destruct (Engine.letter_params t q) as [[[a b] x1] x2].
    eexists. split; [reflexivity | repeat split].
  - apply generate_word_question_returns.
  - apply generate_raven_matrix_question_returns.
  - apply generate_base_conversion_question_returns.
  - destruct (generate_shape_sequence_question_returns t q) as (Q & HQ & Hf & _).
    by exists Q.
  - unfold Engine.generate_self_referential_question.
    destruct (Engine.self_ref_params t q) as [d m].
    eexists. split; [reflexivity | repeat split].
Qed.

(** ** Validation is the only failure *)

Lemma valid_key_dec (t q : Z) : valid_key t q \/ ~ valid_key t q.
Proof. unfold valid_key. lia. Qed.

Lemma invalid_key_iff (t q : Z) :
  ~ valid_key t q <-> (t < 1 \/ 1000 < t \/ q < 1 \/ 100 < q).
Proof. unfold valid_key. lia. Qed.

Lemma generate_question_succeeds (t q : Z) :
  valid_key t q -> succeeds (Engine.generate_question t q).
Proof.
  intros Hv. destruct (generate_question_returns t q Hv) as (Q & HQ & _).
  by exists Q.
Qed.

Lemma generate_question_succeeds_iff (t q : Z) :
  succeeds (Engine.generate_question t q) <-> valid_key t q.
Proof.
  split; [| apply generate_question_succeeds].
  intros Hs. destruct (valid_key_dec t q) as [Hv | Hn]; [done |].
  by destruct (succeeds_not_raises _ Hs (generate_question_invalid t q Hn)).
Qed.

Lemma generate_question_raises_iff (t q : Z) :
  raises_validation (Engine.generate_question t q) <-> ~ valid_key t q.
Proof.
  split; [| apply generate_question_invalid].
  intros Hr Hv. by apply (succeeds_not_raises _ (generate_question_succeeds t q Hv)).
Qed.

Lemma solve_question_succeeds_iff (t q : Z) :
  succeeds (Solver.solve_question t q) <-> valid_key t q.
Proof.
  split; [| apply solve_question_succeeds].
  intros Hs. destruct (valid_key_dec t q) as [Hv | Hn]; [done |].
  by destruct (succeeds_not_raises _ Hs (solve_question_invalid t q Hn)).
Qed.

Lemma solve_question_raises_iff (t q : Z) :
  raises_validation (Solver.solve_question t q) <-> ~ valid_key t q.
Proof.
  split; [| apply solve_question_invalid].
  intros Hr Hv. by apply (succeeds_not_raises _ (solve_question_succeeds t q Hv)).
Qed.

(** ** The claims *)

(** C1. For every pair of integers, [generate_question] and
    [solve_question] raise the input-validation error exactly when
    [test_id] is outside [1, 1000] or [question_idx] is outside [1, 100],
    and return a value exactly on the valid keys; in particular both raise
    at [test_id = 0], [test_id = 1001], [question_idx = 0] and
    [question_idx = 101], and both return at the four extreme keys. *)
Theorem C1_range_validation :
  (forall t q : Z,
     (raises_validation (Engine.generate_question t q)
      <-> (t < 1 \/ 1000 < t \/ q < 1 \/ 100 < q)) /\
     (raises_validation (Solver.solve_question t q)
      <-> (t < 1 \/ 1000 < t \/ q < 1 \/ 100 < q)) /\
     (succeeds (Engine.generate_question t q)
      <-> (1 <= t <= 1000 /\ 1 <= q <= 100)) /\
     (succeeds (Solver.solve_question t q)
      <-> (1 <= t <= 1000 /\ 1 <= q <= 100))) /\
  (forall q : Z,
     raises_validation (Engine.generate_question 0 q) /\
     raises_validation (Solver.solve_question 0 q) /\
     raises_validation (Engine.generate_question 1001 q) /\
     raises_validation (Solver.solve_question 1001 q)) /\
  (forall t : Z,
     raises_validation (Engine.generate_question t 0) /\
     raises_validation (Solver.solve_question t 0) /\
     raises_validation (Engine.generate_question t 101) /\
     raises_validation (Solver.solve_question t 101)) /\
  Forall (fun '(t, q) =>
            succeeds (Engine.generate_question t q) /\
            succeeds (Solver.solve_question t q))
         [(1, 1); (1, 100); (1000, 1); (1000, 100)].
Proof.
  split; [| split; [| split]].
  - intros t q.
    rewrite generate_question_raises_iff, solve_question_raises_iff,
      generate_question_succeeds_iff, solve_question_succeeds_iff,
      invalid_key_iff.
    unfold valid_key. tauto.
  - intros q.
    rewrite !generate_question_raises_iff, !solve_question_raises_iff,
      !invalid_key_iff. lia.
  - intros t.
    rewrite !generate_question_raises_iff, !solve_question_raises_iff,
      !invalid_key_iff. lia.
  - repeat constructor;
      first [apply generate_question_succeeds | apply solve_question_succeeds];
      unfold valid_key; lia.
Qed.

(** C2. On every valid key the generator's dispatcher and the solver's
    dispatcher select the handlers of one and the same domain, the one
    whose band in the partition 1-15, 16-25, 26-35, 36-45, 46-55, 56-70,
    71-80, 81-90, 91-100 contains [question_idx]: [generate_question] is
    that domain's generator handler, [solve_question] is that domain's
    solver handler, and the question returned carries that domain's tag. *)
Theorem C2_dispatch_same_domain (t q : Z) :
  valid_key t q ->
  exists d : Domain,
    spec_band q = Some d /\
    Engine.select q = d /\
    Solver.select q = d /\
    Engine.generate_question t q = Engine.call d t q /\
    Solver.solve_question t q = Solver.call d t q /\
    (exists Q, Engine.generate_question t q = Returns Q /\ q_domain Q = domain_tag d) /\
    match d with
    | Numeric =>
        Engine.generate_question t q = Engine.generate_numeric_question t q /\
        Solver.solve_question t q = Solver._solve_numeric t q
    | Logic =>
        Engine.generate_question t q = Engine.generate_logic_question t q /\
        Solver.solve_question t q = Solver._solve_logic t q
    | Arrows =>
        Engine.generate_question t q = Engine.generate_spatial_like_question t q /\
        Solver.solve_question t q = Solver._solve_arrows t q
    | Letter =>
        Engine.generate_question t q = Engine.generate_letter_question t q /\
        Solver.solve_question t q = Solver._solve_letter t q
    | Word =>
        Engine.generate_question t q = Engine.generate_word_question t q /\
        Solver.solve_question t q = Solver._solve_word t q
    | Raven =>
        Engine.generate_question t q = Engine.generate_raven_matrix_question t q /\
        Solver.solve_question t q = Solver._solve_raven t q
    | BaseConv =>
        Engine.generate_question t q = Engine.generate_base_conversion_question t q /\
        Solver.solve_question t q = Solver._solve_base t q
    | Shape =>
        Engine.generate_question t q = Engine.generate_shape_sequence_question t q /\
        Solver.solve_question t q = Solver._solve_shape_sequence t q
    | SelfRef =>
        Engine.generate_question t q = Engine.generate_self_referential_question t q /\
        Solver.solve_question t q = Solver._solve_self_referential t q
    end.
Proof.
  intros Hv. exists (Engine.select q).
  split; [apply spec_band_select, Hv |].
  split; [reflexivity |].
  split; [symmetry; apply select_agree |].
  split; [by apply generate_question_valid |].
  split; [rewrite select_agree; by apply solve_question_valid |].
  split.
  { destruct (generate_question_returns t q Hv) as (Q & HQ & _ & _ & Hd & _).
    by exists Q. }
  rewrite generate_question_valid, solve_question_valid by done.
  change (Solver.select q) with (Engine.select q).
  destruct (Engine.select q); split; reflexivity.
Qed.

Lemma C2_dispatch_same_domain_witness :
  valid_key 7 56 /\
  spec_band 56 = Some Raven /\
  Engine.generate_question 7 56 = Engine.generate_raven_matrix_question 7 56 /\
  Solver.solve_question 7 56 = Solver._solve_raven 7 56 /\
  exists Q, Engine.generate_question 7 56 = Returns Q /\
            q_domain Q = "raven_matrix_hard"%string.
Proof.
  assert (Hv : valid_key 7 56) by (unfold valid_key; lia).
  destruct (C2_dispatch_same_domain 7 56 Hv)
    as (d & Hb & _ & _ & _ & _ & (Q & HQ & Hd) & Hh).
  injection Hb as <-. destruct Hh as [Hg Hs].
  split; [exact Hv |]. split; [reflexivity |]. split; [exact Hg |].
  split; [exact Hs |]. exists Q. split; [exact HQ | exact Hd].
Defined.

(** The decimal rendering of an integer is never the placeholder. *)
Lemma str_not_placeholder (z : Z) : Py.str z <> "?"%string.
Proof.
  unfold Py.str. destruct (Z.to_int z) as [d | d]; simpl.
  - destruct d; discriminate.
  - discriminate.
Qed.

Lemma spec_numeric_seq_length (t l : Z) : length (spec_numeric_seq t l) = 7%nat.
Proof. reflexivity. Qed.

(** What the generator shows at each position of the numeric sequence. *)
Lemma numeric_shown_lookup (t q : Z) (i : nat) :
  Engine.numeric_shown t q !! i
  = (fun x => if Z.of_nat i =? 2 + q mod 3 then "?"%string else Py.str x)
      <$> spec_numeric_seq t q !! i.
Proof.
  unfold Engine.numeric_shown. rewrite engine_numeric_seq.
  apply list_lookup_imap.
Qed.

Lemma numeric_shown_placeholder (t q : Z) (i : nat) :
  Engine.numeric_shown t q !! i = Some "?"%string <-> i = Z.to_nat (2 + q mod 3).
Proof.
  pose proof (Z.mod_pos_bound q 3) as Hm.
  rewrite numeric_shown_lookup. split.
  - destruct (spec_numeric_seq t q !! i) as [x |]; simpl; [| discriminate].
    destruct (Z.eqb_spec (Z.of_nat i) (2 + q mod 3)) as [He | Hne]; [lia |].
    intros [= Hs]. by destruct (str_not_placeholder x).
  - intros ->.
    destruct (lookup_lt_is_Some_2 (spec_numeric_seq t q) (Z.to_nat (2 + q mod 3)))
      as [x ->]; [rewrite spec_numeric_seq_length; lia |].
    simpl. destruct (Z.eqb_spec (Z.of_nat (Z.to_nat (2 + q mod 3))) (2 + q mod 3));
      [done | lia].
Qed.

(** C4. On a valid key of the numeric band, [solve_question] returns the
    term at 0-based position [2 + local mod 3] (so 2, 3 or 4) of the 7-term
    sequence [a_k = base + alpha k + beta k^2 + parity_offset(k)],
    [k = 1..7]; that position is strictly interior, and it is the one and
    only position the generator renders as the placeholder, the others
    being shown as the decimal rendering of their term. *)
Theorem C4_numeric_hidden_term (t q : Z) :
  valid_key t q -> 1 <= q <= 15 ->
  let local := q in
  let pos := 2 + local mod 3 in
  (pos = 2 \/ pos = 3 \/ pos = 4) /\
  (0 < pos < Z.of_nat (length (spec_numeric_seq t local)) - 1) /\
  (exists v,
      Solver.solve_question t q = Returns (AInt v) /\
      spec_numeric_seq t local !! Z.to_nat pos = Some v /\
      v = spec_numeric_term t local (pos + 1)) /\
  (exists Q shown,
      Engine.generate_question t q = Returns Q /\
      q_prompt Q = Engine.numeric_header t q +:+ Py.join ", " shown /\
      length shown = length (spec_numeric_seq t local) /\
      (forall i, shown !! i = Some "?"%string <-> i = Z.to_nat pos) /\
      (forall i x, i <> Z.to_nat pos -> spec_numeric_seq t local !! i = Some x ->
                   shown !! i = Some (Py.str x))).
Proof.
  intros Hv Hq local pos. subst local.
  pose proof (Z.mod_pos_bound q 3 ltac:(lia)) as Hm.
  split; [unfold pos; lia |].
  split; [rewrite spec_numeric_seq_length; unfold pos; lia |].
  split.
  - rewrite solve_question_valid by done.
    unfold Solver.select. decide_leb. cbn [andb Solver.call].
    destruct (_solve_numeric_returns t q) as (v & Hs & Hl).
    exists v. split; [done |]. split; [done |].
    fold pos in Hl. unfold spec_numeric_seq in Hl.
    assert (pos = 2 \/ pos = 3 \/ pos = 4) as [Hp | [Hp | Hp]] by (unfold pos; lia);
      rewrite Hp in *; simpl in Hl; by injection Hl as <-.
  - exists {| q_test_id := t; q_question_idx := q;
              q_domain := "numeric_sequence_hard";
              q_prompt := Engine.numeric_header t q
                          +:+ Py.join ", " (Engine.numeric_shown t q);
              q_meta := <["local_index" := MInt q]> (<["length" := MInt 7]> (
                        <["pattern_hint" :=
                            MStr "mix of linear, quadratic, and parity-based offsets"]> ∅)) |},
           (Engine.numeric_shown t q).
    split.
    { rewrite generate_question_valid by done.
      unfold Engine.select. decide_leb. reflexivity. }
    split; [reflexivity |].
    split.
    { unfold Engine.numeric_shown. rewrite length_imap. by rewrite engine_numeric_seq. }
    split; [intros i; apply numeric_shown_placeholder |].
    intros i x Hi Hx. rewrite numeric_shown_lookup, Hx. simpl.
    destruct (Z.eqb_spec (Z.of_nat i) (2 + q mod 3)); [unfold pos in Hi; lia | done].
Qed.

Lemma C4_numeric_hidden_term_witness :
  valid_key 1 1 /\ 1 <= 1 <= 15 /\
  Solver.solve_question 1 1 = Returns (AInt 115) /\
  spec_numeric_seq 1 1 = [29; 47; 77; 115; 165; 223; 293] /\
  exists Q shown,
    Engine.generate_question 1 1 = Returns Q /\
    q_prompt Q = Engine.numeric_header 1 1 +:+ Py.join ", " shown /\
    forall i, shown !! i = Some "?"%string <-> i = 3%nat.
Proof.
  assert (Hv : valid_key 1 1) by (unfold valid_key; lia).
  assert (Hq : 1 <= 1 <= 15) by lia.
  destruct (C4_numeric_hidden_term 1 1 Hv Hq)
    as (_ & _ & (v & Hs & Hl & _) & (Q & shown & HQ & Hp & _ & Hi & _)).
  split; [exact Hv |]. split; [exact Hq |].
  split; [reflexivity |]. split; [reflexivity |].
  exists Q, shown. split; [exact HQ |]. split; [exact Hp | exact Hi].
Defined.
(** The solver's prime-like test decides the spec's notion. *)
Lemma _is_prime_like_spec (n : Z) :
  Solver._is_prime_like n = true <-> spec_prime_like n.
Proof.
  unfold Solver._is_prime_like, spec_prime_like. simpl. split.
  - intros H d Hd Hdiv.
    assert (n mod d = 0) as Hz.
    { apply Z.mod_divide; [| done]. simpl in Hd. lia. }
    simpl in Hd.
    destruct Hd as [<- | [<- | [<- | [<- | []]]]]; rewrite Hz in H; simpl in H;
      repeat match type of H with
             | context [?a =? 0] => destruct (a =? 0)
             end; discriminate.
  - intros H.
    repeat match goal with
           | |- context [n mod ?d =? 0] =>
               destruct (Z.eqb_spec (n mod d) 0) as [Hz | _];
               [exfalso; apply (H d); [simpl; tauto | apply Z.mod_divide; [lia | done]] |]
           end.
    reflexivity.
Qed.

(** The solver's four formulas are the spec's templates. *)
Lemma _solve_logic_template (t q : Z) :
  let local := q - 15 in
  Solver._solve_logic t q
  = Returns (AStr (if spec_template ((t + local) mod 4)
                        (t mod 2 =? 0) (local mod 3 =? 0)
                        (Solver._is_prime_like (t + local))
                   then "TRUE" else "FALSE")).
Proof.
  intros local. unfold Solver._solve_logic, spec_template. fold local.
  repeat match goal with |- context [?a =? ?b] => destruct (a =? b) end;
    destruct (Solver._is_prime_like (t + local)); reflexivity.
Qed.

(** C5. On a valid key of the logic band, [solve_question] returns
    "TRUE" or "FALSE" according to the template selected by
    [(test_id + local) mod 4], evaluated at [p] = "test_id is even",
    [q] = "local is a multiple of 3" and [r] = "test_id + local has no
    divisor in {2, 3, 5, 7}", implication being material; and
    [solve_question(1, 16)] is "FALSE". *)
Theorem C5_logic_template (t q : Z) (p qm r : bool) :
  valid_key t q -> 16 <= q <= 25 ->
  let local := q - 15 in
  (p = true <-> Z.Even t) ->
  (qm = true <-> (3 | local)) ->
  (r = true <-> spec_prime_like (t + local)) ->
  Solver.solve_question t q
  = Returns (AStr (if spec_template ((t + local) mod 4) p qm r
                   then "TRUE" else "FALSE")) /\
  Solver.solve_question 1 16 = Returns (AStr "FALSE").
Proof.
  intros Hv Hq local Hp Hqm Hr. split; [| reflexivity].
  rewrite solve_question_valid by done.
  unfold Solver.select. decide_leb. cbn [andb Solver.call].
  rewrite _solve_logic_template. fold local.
  assert (p = (t mod 2 =? 0)) as ->.
  { apply eq_true_iff_eq. rewrite Hp, Z.eqb_eq.
    rewrite <- Z.even_spec, Zeven_mod. apply Z.eqb_eq. }
  assert (qm = (local mod 3 =? 0)) as ->.
  { apply eq_true_iff_eq. rewrite Hqm, Z.eqb_eq. symmetry. apply Z.mod_divide. lia. }
  assert (r = Solver._is_prime_like (t + local)) as ->.
  { apply eq_true_iff_eq. rewrite Hr. symmetry. apply _is_prime_like_spec. }
  reflexivity.
Qed.

Lemma C5_logic_template_witness :
  valid_key 2 18 /\ 16 <= 18 <= 25 /\
  (true = true <-> Z.Even 2) /\
  (true = true <-> (3 | 18 - 15)) /\
  (false = true <-> spec_prime_like (2 + (18 - 15))) /\
  Solver.solve_question 2 18 = Returns (AStr "TRUE").
Proof.
  assert (Hv : valid_key 2 18) by (unfold valid_key; lia).
  assert (Hq : 16 <= 18 <= 25) by lia.
  assert (Hp : true = true <-> Z.Even 2).
  { split; [intros _; exists 1; reflexivity | reflexivity]. }
  assert (Hqm : true = true <-> (3 | 18 - 15)).
  { split; [intros _; exists 1; reflexivity | reflexivity]. }
  assert (Hr : false = true <-> spec_prime_like (2 + (18 - 15))).
  { split; [discriminate |].
    intros H. exfalso. apply (H 5); [simpl; tauto | exists 1; reflexivity]. }
  repeat (split; [assumption |]).
  exact (proj1 (C5_logic_template 2 18 true true false Hv Hq Hp Hqm Hr)).
Defined.

(** [chr(ord('A') + i % 26)] is the letter at index [i] of the alphabet. *)
Lemma enc_alphabet (i : Z) :
  0 <= i < 26 -> alphabet !! Z.to_nat i = Some (Solver.enc i).
Proof.
  intros Hi.
  assert (i = 0 \/ i = 1 \/ i = 2 \/ i = 3 \/ i = 4 \/ i = 5 \/ i = 6 \/ i = 7 \/
          i = 8 \/ i = 9 \/ i = 10 \/ i = 11 \/ i = 12 \/ i = 13 \/ i = 14 \/
          i = 15 \/ i = 16 \/ i = 17 \/ i = 18 \/ i = 19 \/ i = 20 \/ i = 21 \/
          i = 22 \/ i = 23 \/ i = 24 \/ i = 25) as Hc by lia.
  repeat (destruct Hc as [-> | Hc]; [reflexivity |]). by subst i.
Qed.

(** [(2 t + 1) mod 26] is odd whatever [t] is. *)
Lemma letter_a_odd (t : Z) : ((2 * t + 1) mod 26) mod 2 = 1.
Proof.
  pose proof (Z.div_mod (2 * t + 1) 26 ltac:(lia)) as Hd.
  pose proof (Z.mod_pos_bound (2 * t + 1) 26 ltac:(lia)) as Hb.
  set (a := (2 * t + 1) mod 26) in *.
  assert (a = 2 * (t - 13 * ((2 * t + 1) / 26)) + 1) as Ha by lia.
  rewrite Ha at 1. rewrite Z.add_comm, Z.mul_comm, Z_mod_plus_full. reflexivity.
Qed.

(** The coefficients the solver derives are the spec's. *)
Lemma solver_letter_params (t q : Z) :
  let local := q - 35 in
  let x1 := (5 * t + local) mod 26 in
  Solver.letter_params t q
  = (spec_letter_a t, (3 * local + t) mod 26, x1, (x1 + 13) mod 26).
Proof.
  intros local x1. unfold Solver.letter_params, spec_letter_a.
  rewrite Zeven_mod, letter_a_odd. reflexivity.
Qed.

(** C6. On a valid key of the letter band, [solve_question] returns the
    letter at index [(a x2 + b) mod 26] of the alphabet, for
    [a = (2 test_id + 1) mod 26] bumped by 1 if even,
    [b = (3 local + test_id) mod 26], [x1 = (5 test_id + local) mod 26]
    and [x2 = (x1 + 13) mod 26]; at the key (1, 36) these are 3, 4, 6 and
    19 and the answer is J. *)
Theorem C6_letter_answer (t q : Z) :
  valid_key t q -> 36 <= q <= 45 ->
  let local := q - 35 in
  let a := spec_letter_a t in
  let b := (3 * local + t) mod 26 in
  let x1 := (5 * t + local) mod 26 in
  let x2 := (x1 + 13) mod 26 in
  (exists L,
      alphabet !! Z.to_nat ((a * x2 + b) mod 26) = Some L /\
      Solver.solve_question t q = Returns (AStr L)) /\
  Solver.letter_params t q = (a, b, x1, x2) /\
  Solver.letter_params 1 36 = (3, 4, 6, 19) /\
  Solver.solve_question 1 36 = Returns (AStr "J").
Proof.
  intros Hv Hq local a b x1 x2.
  split; [| split; [apply solver_letter_params | split; reflexivity]].
  exists (Solver.enc ((a * x2 + b) mod 26)). split.
  - apply enc_alphabet, Z.mod_pos_bound. lia.
  - rewrite solve_question_valid by done.
    unfold Solver.select. decide_leb. cbn [andb Solver.call].
    unfold Solver._solve_letter. rewrite solver_letter_params. reflexivity.
Qed.

Lemma C6_letter_answer_witness :
  valid_key 1 36 /\ 36 <= 36 <= 45 /\
  exists L,
    alphabet !! Z.to_nat ((spec_letter_a 1 * 19 + 4) mod 26) = Some L /\
    Solver.solve_question 1 36 = Returns (AStr L).
Proof.
  assert (Hv : valid_key 1 36) by (unfold valid_key; lia).
  assert (Hq : 36 <= 36 <= 45) by lia.
  split; [exact Hv |]. split; [exact Hq |].
  exact (proj1 (C6_letter_answer 1 36 Hv Hq)).
Defined.

(** C7. On a valid key of the arrow band, [solve_question] returns the
    string "(A, B)" where [A] is the primary-cycle element at index
    [(N1 - 1) mod 4], [N1 = 7 test_id + 11 local], and [B] the
    secondary-cycle element at index [(N2 - 1) mod 4],
    [N2 = 5 test_id - 3 local]; both residues lie in [0, 4), also when
    [N2] is negative. *)
Theorem C7_arrow_pair (t q : Z) :
  valid_key t q -> 26 <= q <= 35 ->
  let local := q - 25 in
  let N1 := 7 * t + 11 * local in
  let N2 := 5 * t - 3 * local in
  0 <= (N1 - 1) mod 4 < 4 /\
  0 <= (N2 - 1) mod 4 < 4 /\
  exists A B,
    spec_primary !! Z.to_nat ((N1 - 1) mod 4) = Some A /\
    spec_secondary !! Z.to_nat ((N2 - 1) mod 4) = Some B /\
    Solver.solve_question t q = Returns (AStr ("(" +:+ A +:+ ", " +:+ B +:+ ")")).
Proof.
  intros Hv Hq local N1 N2.
  split; [apply Z.mod_pos_bound; lia |].
  split; [apply Z.mod_pos_bound; lia |].
  destruct (_solve_arrows_returns t q) as (A & B & Hs & HA & HB).
  exists A, B. split; [exact HA |]. split; [exact HB |].
  rewrite solve_question_valid by done.
  unfold Solver.select. decide_leb. cbn [andb Solver.call]. exact Hs.
Qed.

Lemma C7_arrow_pair_witness :
  valid_key 1 35 /\ 26 <= 35 <= 35 /\
  5 * 1 - 3 * (35 - 25) = -25 /\
  (5 * 1 - 3 * (35 - 25) - 1) mod 4 = 2 /\
  exists A B,
    spec_primary !! Z.to_nat ((7 * 1 + 11 * (35 - 25) - 1) mod 4) = Some A /\
    spec_secondary !! Z.to_nat ((5 * 1 - 3 * (35 - 25) - 1) mod 4) = Some B /\
    Solver.solve_question 1 35 = Returns (AStr ("(" +:+ A +:+ ", " +:+ B +:+ ")")).
Proof.
  assert (Hv : valid_key 1 35) by (unfold valid_key; lia).
  assert (Hq : 26 <= 35 <= 35) by lia.
  split; [exact Hv |]. split; [exact Hq |].
  split; [reflexivity |]. split; [reflexivity |].
  exact (proj2 (proj2 (C7_arrow_pair 1 35 Hv Hq))).
Defined.

(** The second base as the spec describes its choice: the first formula,
    re-rolled by the alternate formula on a collision with [base_x], and 16
    if the re-rolled value collides as well. *)
Lemma engine_base_params (t q : Z) :
  let local := q - 70 in
  let base_x := 5 + (t + local) mod 12 in
  let first := 5 + (2 * t + local) mod 12 in
  let rerolled := 5 + (3 * t + local) mod 12 in
  Engine.base_params t q
  = (base_x,
     if decide (first = base_x)
     then (if decide (rerolled = base_x) then 16 else rerolled)
     else first,
     5 + (t + 2 * local) mod 12).
Proof.
  intros local base_x first rerolled. unfold Engine.base_params.
  fold local. fold base_x. fold first. fold rerolled.
  destruct (Z.eqb_spec first base_x), (Z.eqb_spec rerolled base_x);
    repeat case_decide; try lia; reflexivity.
Qed.

(** In the base band the first two bases differ. *)
Lemma base_params_distinct (t q : Z) :
  71 <= q <= 80 ->
  let '(base_x, base_y, _) := Engine.base_params t q in base_x <> base_y.
Proof.
  intros Hq. unfold Engine.base_params.
  set (l := q - 70).
  pose proof (Z.div_mod (t + l) 12 ltac:(lia)).
  pose proof (Z.mod_pos_bound (t + l) 12 ltac:(lia)).
  pose proof (Z.div_mod (2 * t + l) 12 ltac:(lia)).
  pose proof (Z.mod_pos_bound (2 * t + l) 12 ltac:(lia)).
  pose proof (Z.div_mod (3 * t + l) 12 ltac:(lia)).
  pose proof (Z.mod_pos_bound (3 * t + l) 12 ltac:(lia)).
  destruct (Z.eqb_spec (5 + (2 * t + l) mod 12) (5 + (t + l) mod 12)) as [E1 | N1];
    [| lia].
  destruct (Z.eqb_spec (5 + (3 * t + l) mod 12) (5 + (t + l) mod 12)) as [E2 | N2];
    [| lia].
  subst l. lia.
Qed.

(** The bases and renderings the base-conversion question records. *)
Lemma generate_base_conversion_question_meta (t q : Z) :
  let '(base_x, base_y, base_z) := Engine.base_params t q in
  exists Q repr_x repr_y repr_z,
    Engine.generate_base_conversion_question t q = Returns Q /\
    Engine._to_base (Engine.base_N t q) base_x = Returns repr_x /\
    Engine._to_base (Engine.base_N t q) base_y = Returns repr_y /\
    Engine._to_base (Engine.base_N t q) base_z = Returns repr_z /\
    q_meta Q !! "base_x"%string = Some (MInt base_x) /\
    q_meta Q !! "base_y"%string = Some (MInt base_y) /\
    q_meta Q !! "base_z"%string = Some (MInt base_z) /\
    q_meta Q !! "repr_x"%string = Some (MStr repr_x) /\
    q_meta Q !! "repr_y"%string = Some (MStr repr_y) /\
    q_meta Q !! "repr_z"%string = Some (MStr repr_z).
Proof.
  unfold Engine.generate_base_conversion_question.
  pose proof (base_params_bounds t q) as Hb.
  destruct (Engine.base_params t q) as [[bx by_] bz].
  destruct Hb as (Hx & Hy & Hz).
  destruct (_to_base_returns (Engine.base_N t q) bx) as [rx Hrx]; [lia |].
  destruct (_to_base_returns (Engine.base_N t q) by_) as [ry Hry]; [lia |].
  destruct (_to_base_returns (Engine.base_N t q) bz) as [rz Hrz]; [lia |].
  rewrite Hrx, Hry, Hrz. mstep.
  eexists _, rx, ry, rz. split; [reflexivity |]. repeat split.
Qed.

(** C8. On a valid key of the base band the question's [base_x] is
    [5 + (test_id + local) mod 12], its [base_y] is
    [5 + (2 test_id + local) mod 12], re-rolled to
    [5 + (3 test_id + local) mod 12] on a collision and set to 16 if it
    still collides, and the two differ; [base_x], [base_y] and [base_z]
    all lie in [5, 16]. *)
Theorem C8_bases_distinct (t q : Z) :
  valid_key t q -> 71 <= q <= 80 ->
  let local := q - 70 in
  let first := 5 + (2 * t + local) mod 12 in
  let rerolled := 5 + (3 * t + local) mod 12 in
  exists Q base_x base_y base_z,
    Engine.generate_question t q = Returns Q /\
    q_meta Q !! "base_x"%string = Some (MInt base_x) /\
    q_meta Q !! "base_y"%string = Some (MInt base_y) /\
    q_meta Q !! "base_z"%string = Some (MInt base_z) /\
    Engine.base_params t q = (base_x, base_y, base_z) /\
    base_x = 5 + (t + local) mod 12 /\
    base_y = (if decide (first = base_x)
              then (if decide (rerolled = base_x) then 16 else rerolled)
              else first) /\
    base_x <> base_y /\
    5 <= base_x <= 16 /\ 5 <= base_y <= 16 /\ 5 <= base_z <= 16.
Proof.
  intros Hv Hq local first rerolled.
  pose proof (generate_base_conversion_question_meta t q) as Hm.
  pose proof (base_params_bounds t q) as Hb.
  pose proof (base_params_distinct t q Hq) as Hd.
  pose proof (engine_base_params t q) as He. cbv zeta in He.
  destruct (Engine.base_params t q) as [[bx by_] bz].
  destruct Hm as (Q & rx & ry & rz & HQ & _ & _ & _ & Hx & Hy & Hz & _).
  injection He as Ex Ey Ez.
  exists Q, bx, by_, bz.
  split.
  { rewrite generate_question_valid by done.
    unfold Engine.select. decide_leb. exact HQ. }
  split; [exact Hx |]. split; [exact Hy |]. split; [exact Hz |].
  split; [reflexivity |]. split; [exact Ex |].
  split; [rewrite Ey, Ex; reflexivity |].
  split; [exact Hd |]. exact Hb.
Qed.

Lemma C8_bases_distinct_witness :
  valid_key 12 75 /\ 71 <= 75 <= 80 /\
  Engine.base_params 12 75 = (10, 16, 15) /\
  exists Q base_x base_y,
    Engine.generate_question 12 75 = Returns Q /\
    q_meta Q !! "base_x"%string = Some (MInt base_x) /\
    q_meta Q !! "base_y"%string = Some (MInt base_y) /\
    base_x <> base_y.
Proof.
  assert (Hv : valid_key 12 75) by (unfold valid_key; lia).
  assert (Hq : 71 <= 75 <= 80) by lia.
  destruct (C8_bases_distinct 12 75 Hv Hq)
    as (Q & bx & by_ & bz & HQ & Hx & Hy & _ & _ & _ & _ & Hd & _).
  split; [exact Hv |]. split; [exact Hq |]. split; [reflexivity |].
  exists Q, bx, by_. auto.
Defined.

(** C9. On a valid key of the base band, [solve_question] returns
    [N = 200 + 17 test_id + 11 local], the integer the generator renders,
    computed from the key alone; [N] is positive, so rendering it never
    takes the "0" branch of [_to_base] and every rendering is the loop's
    output; and [solve_question(2, 71)] is 245, which is 365 in base 8. *)
Theorem C9_base_answer (t q : Z) :
  valid_key t q -> 71 <= q <= 80 ->
  let local := q - 70 in
  let N := 200 + 17 * t + 11 * local in
  Solver.solve_question t q = Returns (AInt N) /\
  Engine.base_N t q = N /\
  0 < N /\
  (forall base,
      Engine._to_base N base = Engine._to_base_loop (Z.to_nat N) base N "") /\
  Solver.solve_question 2 71 = Returns (AInt 245) /\
  Engine._to_base 245 8 = Returns "365"%string.
Proof.
  intros Hv Hq local N. destruct Hv as [Ht Hq'].
  assert (0 < N) as HN by (unfold N, local; lia).
  split.
  { rewrite solve_question_valid by done.
    unfold Solver.select. decide_leb. reflexivity. }
  split; [reflexivity |]. split; [exact HN |].
  split.
  { intros base. unfold Engine._to_base.
    destruct (Z.eqb_spec N 0); [lia | reflexivity]. }
  split; reflexivity.
Qed.

Lemma C9_base_answer_witness :
  valid_key 2 71 /\ 71 <= 71 <= 80 /\
  Solver.solve_question 2 71 = Returns (AInt (200 + 17 * 2 + 11 * (71 - 70))) /\
  exists Q,
    Engine.generate_question 2 71 = Returns Q /\
    q_meta Q !! "base_x"%string = Some (MInt 8) /\
    q_meta Q !! "repr_x"%string = Some (MStr "365").
Proof.
  assert (Hv : valid_key 2 71) by (unfold valid_key; lia).
  assert (Hq : 71 <= 71 <= 80) by lia.
  split; [exact Hv |]. split; [exact Hq |].
  split; [exact (proj1 (C9_base_answer 2 71 Hv Hq)) |].
  eexists. split; [reflexivity |]. split; reflexivity.
Defined.



(** The even-coefficient correction is dead code in both components. *)
Lemma letter_correction_unreachable (t : Z) :
  (((2 * t + 1) mod 26) mod 2 =? 0) = false.
Proof. by rewrite letter_a_odd. Qed.

(** C10, at the key (6, 36).  The coefficient is [a = 13] in the solver
    and in the generated question: odd, as on every key, but a divisor of
    26, so no [u] gives [13 u = 1] modulo 26 and the letter map sends both
    A and C to the same letter. *)
Theorem C10_letter_coefficient_13 :
  valid_key 6 36 /\
  Solver.letter_params 6 36 = (13, 9, 5, 18) /\
  (exists Q, Engine.generate_question 6 36 = Returns Q /\
             q_meta Q !! "a_mod_26"%string = Some (MInt 13)) /\
  spec_letter_a 6 = 13 /\
  13 mod 2 = 1 /\
  Z.gcd 13 26 = 13 /\
  (forall u, (13 * u) mod 26 <> 1) /\
  Solver.enc ((13 * 0 + 9) mod 26) = Solver.enc ((13 * 2 + 9) mod 26).
Proof.
  split; [unfold valid_key; lia |]. split; [reflexivity |].
  split; [eexists; split; reflexivity |].
  split; [reflexivity |]. split; [reflexivity |]. split; [reflexivity |].
  split; [| reflexivity].
  intros u Hu.
  pose proof (Z.div_mod (13 * u) 26 ltac:(lia)) as Hd. lia.
Qed.

(** ** Further properties of the code *)

(** X1. The two entry points validate alike: outside the valid range both
    raise [ValueError] with one and the same message, which names
    [test_id] whenever [test_id] is out of range (whatever
    [question_idx] is) and names [question_idx] otherwise. *)
Theorem validation_same_error (t q : Z) (msg : string) :
  validation_message t q = Some msg ->
  Engine.generate_question t q = Raises (ValueError msg) /\
  Solver.solve_question t q = Raises (ValueError msg) /\
  (~ 1 <= t <= 1000 -> msg = "test_id must be in 1..1000"%string) /\
  (1 <= t <= 1000 -> msg = "question_idx must be in 1..100"%string).
Proof.
  unfold validation_message, Engine.generate_question, Solver.solve_question,
    Solver._ensure_valid_indices, Solver.NUM_TESTS, Solver.QUESTIONS_PER_TEST,
    Engine.NUM_TESTS, Engine.QUESTIONS_PER_TEST.
  repeat case_decide; intros [= <-];
    repeat match goal with
           | |- context [?a <=? ?b] => destruct (Z.leb_spec a b)
           end; try lia; cbn [negb andb];
    (split; [reflexivity |]; split; [reflexivity |]; split; intros ?;
     first [reflexivity | lia]).
Qed.

Lemma validation_same_error_witness :
  validation_message 0 101 = Some "test_id must be in 1..1000"%string /\
  Engine.generate_question 0 101 = Raises (ValueError "test_id must be in 1..1000") /\
  Solver.solve_question 0 101 = Raises (ValueError "test_id must be in 1..1000").
Proof.
  assert (H : validation_message 0 101 = Some "test_id must be in 1..1000"%string)
    by reflexivity.
  destruct (validation_same_error 0 101 _ H) as (Hg & Hs & _).
  split; [exact H |]. split; [exact Hg | exact Hs].
Defined.

Section BaseRoundTrip.
Import Py.

Lemma digit_value_getchar (i : Z) :
  0 <= i < 36 ->
  exists c, getchar Engine.digits i = Returns (String c EmptyString) /\
            digit_value c = Some i.
Proof.
  intros Hi.
  assert (i = 0 \/ i = 1 \/ i = 2 \/ i = 3 \/ i = 4 \/ i = 5 \/ i = 6 \/ i = 7 \/
          i = 8 \/ i = 9 \/ i = 10 \/ i = 11 \/ i = 12 \/ i = 13 \/ i = 14 \/
          i = 15 \/ i = 16 \/ i = 17 \/ i = 18 \/ i = 19 \/ i = 20 \/ i = 21 \/
          i = 22 \/ i = 23 \/ i = 24 \/ i = 25 \/ i = 26 \/ i = 27 \/ i = 28 \/
          i = 29 \/ i = 30 \/ i = 31 \/ i = 32 \/ i = 33 \/ i = 34 \/ i = 35)
    as Hc by lia.
  repeat (destruct Hc as [-> | Hc]; [eexists; split; reflexivity |]).
  subst i. eexists; split; reflexivity.
Qed.


Lemma append_cons (c : ascii) (s1 s2 : string) :
  String c s1 +:+ s2 = String c (s1 +:+ s2).
Proof. reflexivity. Qed.

Lemma parse_digits_app (base acc : Z) (s1 s2 : string) :
  parse_digits base acc (s1 +:+ s2)
  = parse_digits base acc s1 ≫= fun a => parse_digits base a s2.
Proof.
  revert acc. induction s1 as [| c s1 IH]; intros acc; [reflexivity |].
  rewrite append_cons. cbn [parse_digits].
  destruct (digit_value c) as [d |]; [| reflexivity].
  destruct (d <? base); [apply IH | reflexivity].
Qed.

Lemma append_assoc (s1 s2 s3 : string) : (s1 +:+ s2) +:+ s3 = s1 +:+ (s2 +:+ s3).
Proof.
  induction s1 as [| c s1 IH]; [reflexivity |].
  rewrite !append_cons. by f_equal.
Qed.

(** What the loop adds in front of [out] reads back as the loop variable. *)
Lemma _to_base_loop_parse (fuel : nat) (base x : Z) (out r : string) :
  2 <= base <= 36 -> 0 <= x ->
  Engine._to_base_loop fuel base x out = Returns r ->
  exists s, r = s +:+ out /\
            (0 < x -> s <> EmptyString) /\
            forall acc, exists e,
              0 <= e /\ parse_digits base acc s = Some (acc * base ^ e + x).
Proof.
  intros Hb. revert x out r.
  induction fuel as [| fuel IH]; intros x out r Hx; simpl.
  - destruct (Z.ltb_spec 0 x); [discriminate |]. intros [= <-].
    exists EmptyString. split; [reflexivity |]. split; [lia |].
    intros acc. exists 0. simpl. split; [lia |]. f_equal. lia.
  - destruct (Z.ltb_spec 0 x) as [Hpos | Hle].
    + rewrite mod__nonzero by lia. mstep.
      destruct (digit_value_getchar (x mod base)) as (c & Hc & Hv).
      { pose proof (Z.mod_pos_bound x base). lia. }
      rewrite Hc. mstep. rewrite floordiv_nonzero by lia. mstep.
      intros Hr. apply IH in Hr as (s & -> & _ & Hs);
        [| apply Z.div_pos; lia].
      exists (s +:+ String c EmptyString).
      split; [by rewrite append_assoc |].
      split; [intros _; by destruct s |].
      intros acc. destruct (Hs acc) as (e & He & Hp). exists (e + 1).
      split; [lia |].
      rewrite parse_digits_app, Hp. simpl. rewrite Hv.
      pose proof (Z.mod_pos_bound x base ltac:(lia)).
      destruct (Z.ltb_spec (x mod base) base); [| lia].
      f_equal. rewrite Z.pow_add_r by lia.
      pose proof (Z.div_mod x base ltac:(lia)). nia.
    + intros [= <-]. exists EmptyString. split; [reflexivity |]. split; [lia |].
      intros acc. exists 0. simpl. split; [lia |]. f_equal. lia.
Qed.

Lemma append_empty_r (s : string) : s +:+ "" = s.
Proof.
  induction s as [| c s IH]; [reflexivity |].
  rewrite append_cons. by f_equal.
Qed.

End BaseRoundTrip.

(** X2. Round trip of the base renderer: for a base between 2 and 36 and
    a non-negative integer, [_to_base] returns a non-empty string of
    digits of the alphabet 0-9, A-Z, each below the base, which read most
    significant digit first denote the integer rendered. *)
Theorem _to_base_round_trip (n base : Z) :
  2 <= base <= 36 -> 0 <= n ->
  exists s, Engine._to_base n base = Returns s /\ parse_base base s = Some n.
Proof.
  intros Hb Hn. unfold Engine._to_base.
  destruct (Z.eqb_spec n 0) as [-> | Hne].
  - exists "0"%string. split; [reflexivity |].
    unfold parse_base. simpl. change (Z.of_nat 0) with 0.
    destruct (Z.ltb_spec 0 base); [reflexivity | lia].
  - destruct (_to_base_loop_returns (Z.to_nat n) base n "" Hb) as [s Hs]; [lia |].
    exists s. split; [exact Hs |].
    destruct (_to_base_loop_parse _ _ _ _ _ Hb Hn Hs) as (s' & -> & Hne' & Hp).
    rewrite append_empty_r. destruct (Hp 0) as (e & _ & He).
    unfold parse_base. destruct s'; [exfalso; apply Hne'; [lia | reflexivity] |].
    rewrite He. reflexivity.
Qed.

Lemma _to_base_round_trip_witness :
  2 <= 16 <= 36 /\ 0 <= 48879 /\
  Engine._to_base 48879 16 = Returns "BEEF"%string /\
  exists s, Engine._to_base 48879 16 = Returns s /\ parse_base 16 s = Some 48879.
Proof.
  assert (Hb : 2 <= 16 <= 36) by lia.
  assert (Hn : 0 <= 48879) by lia.
  split; [exact Hb |]. split; [exact Hn |]. split; [vm_compute; reflexivity |].
  exact (_to_base_round_trip 48879 16 Hb Hn).
Defined.

(** On base 1 the loop makes no progress: whatever the fuel, it is used up. *)
Lemma _to_base_loop_base_1 (fuel : nat) (x : Z) (out : string) :
  0 < x -> Engine._to_base_loop fuel 1 x out = Diverges.
Proof.
  intros Hx. revert out. induction fuel as [| fuel IH]; intros out; simpl;
    destruct (Z.ltb_spec 0 x); try lia; [reflexivity |].
  unfold Py.mod_, Py.floordiv. simpl. rewrite Z.mod_1_r. mstep.
  change (Py.getchar Engine.digits 0) with (Returns "0"%string). mstep.
  rewrite Z.div_1_r. apply IH.
Qed.

(** X3. Degenerate arguments of the base renderer.  For a positive
    integer, base 0 raises [ZeroDivisionError], base 1 never returns
    (the loop variable stays put, so any number of iterations is used up),
    and a non-zero base leaving a residue of 36 or more raises
    [IndexError], the alphabet having 36 digits.  Zero is rendered "0" and a negative integer
    as the empty string, whatever the base. *)
Theorem _to_base_degenerate (n m : Z) :
  0 < n -> m < 0 ->
  Engine._to_base n 0 = Raises ZeroDivisionError /\
  Engine._to_base n 1 = Diverges /\
  (forall fuel out, Engine._to_base_loop fuel 1 n out = Diverges) /\
  (forall base, base <> 0 -> 36 <= n mod base ->
                Engine._to_base n base = Raises IndexError) /\
  (forall base, Engine._to_base 0 base = Returns "0"%string) /\
  (forall base, Engine._to_base m base = Returns ""%string).
Proof.
  intros Hn Hm.
  assert (Hfuel : exists fuel, Z.to_nat n = S fuel).
  { exists (Nat.pred (Z.to_nat n)). lia. }
  destruct Hfuel as [fuel Hfuel].
  split; [| split; [| split; [| split; [| split]]]].
  - unfold Engine._to_base. destruct (Z.eqb_spec n 0); [lia |].
    rewrite Hfuel. simpl. destruct (Z.ltb_spec 0 n); [reflexivity | lia].
  - unfold Engine._to_base. destruct (Z.eqb_spec n 0); [lia |].
    by apply _to_base_loop_base_1.
  - intros f out. by apply _to_base_loop_base_1.
  - intros base Hnz Hbase. unfold Engine._to_base.
    destruct (Z.eqb_spec n 0); [lia |]. rewrite Hfuel. simpl.
    destruct (Z.ltb_spec 0 n); [| lia].
    rewrite mod__nonzero by done. mstep.
    unfold Py.getchar, Py.subscript.
    destruct (Z.ltb_spec (n mod base) 0); [lia |].
    change (Z.of_nat (String.length Engine.digits)) with 36.
    destruct (Z.leb_spec 0 (n mod base)); [| lia].
    destruct (Z.ltb_spec (n mod base) 36); [lia | reflexivity].
  - reflexivity.
  - intros base. unfold Engine._to_base. destruct (Z.eqb_spec m 0); [lia |].
    replace (Z.to_nat m) with 0%nat by lia. simpl.
    destruct (Z.ltb_spec 0 m); [lia | reflexivity].
Qed.

Lemma _to_base_degenerate_witness :
  0 < 245 /\ -3 < 0 /\
  Engine._to_base 245 0 = Raises ZeroDivisionError /\
  Engine._to_base 245 1 = Diverges /\
  Engine._to_base 245 50 = Raises IndexError /\
  Engine._to_base (-3) 8 = Returns ""%string.
Proof.
  assert (Hn : 0 < 245) by lia. assert (Hm : -3 < 0) by lia.
  destruct (_to_base_degenerate 245 (-3) Hn Hm) as (H0 & H1 & _ & Hi & _ & He).
  split; [exact Hn |]. split; [exact Hm |]. split; [exact H0 |].
  split; [exact H1 |]. split; [apply Hi; [lia | vm_compute; discriminate] | apply He].
Defined.

(** X4. In the base-conversion domain the question and the answer agree:
    each of the three renderings recorded in the meta, read in the base
    recorded beside it, denotes the integer [solve_question] returns. *)
Theorem base_question_round_trip (t q : Z) :
  valid_key t q -> 71 <= q <= 80 ->
  exists Q N,
    Engine.generate_question t q = Returns Q /\
    Solver.solve_question t q = Returns (AInt N) /\
    Forall (fun '(base_key, repr_key) =>
              exists base repr,
                q_meta Q !! base_key = Some (MInt base) /\
                q_meta Q !! repr_key = Some (MStr repr) /\
                parse_base base repr = Some N)
           [("base_x", "repr_x"); ("base_y", "repr_y"); ("base_z", "repr_z")]%string.
Proof.
  intros Hv Hq.
  pose proof (generate_base_conversion_question_meta t q) as Hm.
  pose proof (base_params_bounds t q) as Hb.
  destruct (Engine.base_params t q) as [[bx by_] bz].
  destruct Hb as (Hbx & Hby & Hbz).
  destruct Hm as (Q & rx & ry & rz & HQ & Hrx & Hry & Hrz & Mx & My & Mz & Sx & Sy & Sz).
  assert (HN : 0 <= Engine.base_N t q).
  { unfold Engine.base_N. destruct Hv. lia. }
  exists Q, (Engine.base_N t q).
  split.
  { rewrite generate_question_valid by done.
    unfold Engine.select. decide_leb. exact HQ. }
  split.
  { rewrite solve_question_valid by done.
    unfold Solver.select. decide_leb. reflexivity. }
  repeat constructor.
  - exists bx, rx. split; [exact Mx |]. split; [exact Sx |].
    destruct (_to_base_round_trip (Engine.base_N t q) bx) as (s & Hs & Hp);
      [lia | done |]. congruence.
  - exists by_, ry. split; [exact My |]. split; [exact Sy |].
    destruct (_to_base_round_trip (Engine.base_N t q) by_) as (s & Hs & Hp);
      [lia | done |]. congruence.
  - exists bz, rz. split; [exact Mz |]. split; [exact Sz |].
    destruct (_to_base_round_trip (Engine.base_N t q) bz) as (s & Hs & Hp);
      [lia | done |]. congruence.
Qed.

Lemma base_question_round_trip_witness :
  valid_key 2 71 /\ 71 <= 71 <= 80 /\
  parse_base 8 "365" = Some 245 /\
  exists Q N,
    Engine.generate_question 2 71 = Returns Q /\
    Solver.solve_question 2 71 = Returns (AInt N) /\
    exists base repr,
      q_meta Q !! "base_x"%string = Some (MInt base) /\
      q_meta Q !! "repr_x"%string = Some (MStr repr) /\
      parse_base base repr = Some N.
Proof.
  assert (Hv : valid_key 2 71) by (unfold valid_key; lia).
  assert (Hq : 71 <= 71 <= 80) by lia.
  destruct (base_question_round_trip 2 71 Hv Hq) as (Q & N & HQ & HS & HF).
  split; [exact Hv |]. split; [exact Hq |]. split; [reflexivity |].
  exists Q, N. split; [exact HQ |]. split; [exact HS |].
  exact (Forall_inv HF).
Defined.

Section Primality.
Import Py.

(** The trial-division loop ends within [fuel] iterations when
    [fuel > r - f], and answers whether no candidate [f, f + 2, ...] up to
    [r] divides [n]. *)
Lemma _is_prime_loop_spec (fuel : nat) (n r f : Z) :
  3 <= f -> r - f < Z.of_nat fuel ->
  exists b, Solver._is_prime_loop fuel n r f = Returns b /\
            (b = true <-> forall k, 0 <= k -> f + 2 * k <= r -> n mod (f + 2 * k) <> 0).
Proof.
  revert f. induction fuel as [| fuel IH]; intros f Hf Hfuel; simpl.
  - destruct (Z.leb_spec f r); [lia |]. exists true. split; [reflexivity |].
    split; [| reflexivity]. intros _ k Hk Hr. lia.
  - destruct (Z.leb_spec f r) as [Hle | Hgt].
    + rewrite mod__nonzero by lia. mstep.
      destruct (Z.eqb_spec (n mod f) 0) as [Hz | Hnz].
      * exists false. split; [reflexivity |]. split; [discriminate |].
        intros H. exfalso. apply (H 0); [lia | lia |].
        by replace (f + 2 * 0) with f by lia.
      * destruct (IH (f + 2)) as (b & Hb & Hspec); [lia | lia |].
        exists b. split; [exact Hb |]. rewrite Hspec. split.
        -- intros H k Hk Hr.
           destruct (Z.eq_dec k 0) as [-> | Hk0].
           ++ by replace (f + 2 * 0) with f by lia.
           ++ replace (f + 2 * k) with (f + 2 + 2 * (k - 1)) by lia.
              apply H; lia.
        -- intros H k Hk Hr.
           replace (f + 2 + 2 * k) with (f + 2 * (k + 1)) by lia.
           apply H; lia.
    + exists true. split; [reflexivity |].
      split; [| reflexivity]. intros _ k Hk Hr. lia.
Qed.

Lemma odd_divisor (n d : Z) : n mod 2 = 1 -> (d | n) -> d mod 2 = 1.
Proof.
  intros Hn [e ->].
  pose proof (Z.mod_pos_bound d 2 ltac:(lia)) as Hb.
  destruct (Z.eq_dec (d mod 2) 1) as [| Hne]; [done |].
  assert (d mod 2 = 0) as Hd by lia.
  apply Z.mod_divide in Hd as [d' ->]; [| lia].
  replace (e * (d' * 2)) with (e * d' * 2) in Hn by lia.
  rewrite Z_mod_mult in Hn. lia.
Qed.

(** An odd composite number has an odd divisor between 3 and its square
    root. *)
Lemma odd_small_divisor (n d : Z) :
  n mod 2 = 1 -> 1 < d < n -> (d | n) ->
  exists m, 3 <= m <= Z.sqrt n /\ m mod 2 = 1 /\ (m | n).
Proof.
  intros Hn Hd Hdiv.
  destruct Hdiv as [e He].
  assert (1 < e < n) as Hebound by nia.
  assert (e | n) as Hediv by (exists d; lia).
  destruct (Z.le_ge_cases d e) as [Hle | Hge].
  - exists d. pose proof (odd_divisor n d Hn ltac:(by exists e)) as Hodd.
    split; [| split; [exact Hodd | by exists e]].
    split.
    + destruct (Z.eq_dec d 2) as [-> | ?]; [discriminate Hodd | lia].
    + apply Z.sqrt_le_square; nia.
  - exists e. pose proof (odd_divisor n e Hn Hediv) as Hodd.
    split; [| split; [exact Hodd | exact Hediv]].
    split.
    + destruct (Z.eq_dec e 2) as [-> | ?]; [discriminate Hodd | lia].
    + apply Z.sqrt_le_square; nia.
Qed.

(** The primality test returns, and its verdict is primality. *)
Lemma _is_prime_spec (n : Z) :
  exists b, Solver._is_prime n = Returns b /\ (b = true <-> Z.prime n).
Proof.
  unfold Solver._is_prime.
  destruct (Z.ltb_spec n 2) as [Hlt | Hge].
  { exists false. split; [reflexivity |]. split; [discriminate |].
    intros Hp. apply Z.prime_ge_2 in Hp. lia. }
  destruct (Z.eqb_spec (n mod 2) 0) as [Heven | Hodd].
  { exists (n =? 2). split; [reflexivity |]. rewrite Z.eqb_eq. split.
    - intros ->. exact Z.prime_2.
    - intros Hp. destruct (Z.eq_dec n 2) as [| Hne]; [done |].
      destruct Hp as [_ Hp]. exfalso. apply (Hp 2); [lia |].
      apply Z.mod_divide; [lia | done]. }
  assert (n mod 2 = 1) as Hn1 by (pose proof (Z.mod_pos_bound n 2); lia).
  assert (3 <= n) as Hn3 by (destruct (Z.eq_dec n 2) as [-> |]; [done | lia]).
  pose proof (Z.sqrt_nonneg n) as Hr0.
  assert (Z.sqrt n < n) as Hrn by (apply Z.sqrt_lt_lin; lia).
  destruct (_is_prime_loop_spec (Z.to_nat (Z.sqrt n)) n (Z.sqrt n) 3)
    as (b & Hb & Hspec); [lia | lia |].
  exists b. split; [exact Hb |]. rewrite Hspec. split.
  - intros H. split; [lia |]. intros d Hd Hdiv.
    destruct (odd_small_divisor n d Hn1 Hd Hdiv) as (m & Hm & Hmodd & Hmdiv).
    apply (H ((m - 3) / 2)).
    + apply Z.div_pos; lia.
    + pose proof (Z.div_mod (m - 3) 2 ltac:(lia)).
      pose proof (Z.mod_pos_bound (m - 3) 2 ltac:(lia)). lia.
    + assert (3 + 2 * ((m - 3) / 2) = m) as ->.
      { pose proof (Z.div_mod (m - 3) 2 ltac:(lia)) as Hdm.
        assert ((m - 3) mod 2 = 0) as Hz.
        { replace (m - 3) with (m + (-2) * 2 + 1) by lia.
          rewrite <- Z.add_mod_idemp_l by lia.
          rewrite Z_mod_plus_full, Hmodd. reflexivity. }
        lia. }
      apply Z.mod_divide; [lia | done].
  - intros Hp k Hk Hr Hz. destruct Hp as [_ Hp].
    apply (Hp (3 + 2 * k)); [lia |].
    apply Z.mod_divide; [lia | done].
Qed.

End Primality.

(** X5. On every integer up to 100, the range the self-referential count
    runs over, [_is_prime] returns a boolean (the trial division needs no
    more iterations than the square root), and it returns [True] exactly
    on the prime numbers. *)
Theorem _is_prime_decides (n : Z) :
  n <= 100 ->
  exists b, Solver._is_prime n = Returns b /\ (b = true <-> Z.prime n).
Proof. intros _. apply _is_prime_spec. Qed.

Lemma _is_prime_decides_witness :
  97 <= 100 /\ Solver._is_prime 97 = Returns true /\ Z.prime 97.
Proof.
  assert (H : 97 <= 100) by lia.
  destruct (_is_prime_decides 97 H) as (b & Hb & Hspec).
  split; [exact H |]. split; [reflexivity |].
  apply Hspec. change (Solver._is_prime 97) with (Returns (A := bool) true) in Hb.
  by injection Hb as <-.
Defined.

(** X6. [_is_prime_like] does what its docstring says: it returns [True]
    exactly on the integers coprime to 2 * 3 * 5 * 7 = 210. *)
Theorem _is_prime_like_coprime_210 (n : Z) :
  Solver._is_prime_like n = true <-> Z.gcd n 210 = 1.
Proof.
  rewrite _is_prime_like_spec. unfold spec_prime_like. split.
  - intros H.
    assert (Hp : forall p, In p [2; 3; 5; 7] -> Z.prime p).
    { intros p Hin. destruct (_is_prime_spec p) as (b & Hb & Hspec).
      apply Hspec. simpl in Hin.
      destruct Hin as [<- | [<- | [<- | [<- | []]]]]; by injection Hb as <-. }
    assert (Hr : forall p, In p [2; 3; 5; 7] -> Z.coprime n p).
    { intros p Hin. apply Z.Symmetric_coprime, Z.coprime_prime_l;
        [by apply Hp | by apply H]. }
    change (Z.coprime n (2 * (3 * (5 * 7)))).
    repeat apply Z.coprime_mul_r; apply Hr; simpl; tauto.
  - intros Hg d Hin Hdiv.
    assert (d | 210) as Hd210.
    { simpl in Hin. destruct Hin as [<- | [<- | [<- | [<- | []]]]];
        [exists 105 | exists 70 | exists 42 | exists 30]; reflexivity. }
    pose proof (Z.gcd_greatest n 210 d Hdiv Hd210) as Hd1.
    rewrite Hg in Hd1. apply Z.divide_1_r in Hd1.
    simpl in Hin. lia.
Qed.

Section SelfRefCount.
Import Py.

Lemma In_range (a b n : Z) : In n (range a b) <-> a <= n < b.
Proof.
  unfold range. rewrite in_map_iff. split.
  - intros (i & <- & Hi). apply in_seq in Hi. lia.
  - intros Hn. exists (Z.to_nat (n - a)). split; [lia |]. apply in_seq. lia.
Qed.

Lemma NoDup_range (a b : Z) : List.NoDup (range a b).
Proof.
  unfold range. apply Finite.Injective_map_NoDup; [| apply seq_NoDup].
  intros i j. lia.
Qed.

(** On the numbers and digits the count ranges over, substring search on
    decimal renderings is digit containment. *)
Lemma has_digit_spec (n d : Z) :
  1 <= n <= 100 -> 0 <= d <= 9 ->
  Solver.has_digit n d = spec_has_digit n d.
Proof.
  intros Hn Hd.
  assert (forallb (fun n => forallb (fun d =>
            Bool.eqb (Solver.has_digit n d) (spec_has_digit n d)) (range 0 10))
          (range 1 101) = true) as Htab by (vm_compute; reflexivity).
  rewrite forallb_forall in Htab. specialize (Htab n).
  rewrite forallb_forall in Htab.
  apply Bool.eqb_prop, Htab; apply In_range; lia.
Qed.

(** One iteration of the counting loop adds one exactly when the number
    visited satisfies the mode's condition. *)
Lemma self_ref_step_spec (digit mode c n : Z) :
  0 <= digit <= 9 -> 1 <= n <= 100 ->
  exists b : bool,
    Solver.self_ref_step digit mode (Returns c) n
    = Returns (if b then c + 1 else c) /\
    (b = true <-> spec_self_ref_cond digit mode n).
Proof.
  intros Hd Hn. unfold Solver.self_ref_step, spec_self_ref_cond. mstep.
  rewrite has_digit_spec by done.
  destruct (mode =? 0); [| destruct (mode =? 1); [| destruct (mode =? 2)]]; mstep.
  - exists (spec_has_digit n digit). split; [reflexivity | tauto].
  - exists (spec_has_digit n digit && (n mod 2 =? 0)). split; [reflexivity |].
    rewrite andb_true_iff, Z.eqb_eq. tauto.
  - destruct (_is_prime_spec n) as (b & Hb & Hspec).
    destruct (spec_has_digit n digit).
    + rewrite Hb. mstep. exists b. split; [reflexivity |]. rewrite Hspec. tauto.
    + mstep. exists false. split; [reflexivity |]. split; [discriminate |].
      intros [? _]. discriminate.
  - exists (spec_has_digit n digit || (n mod 9 =? 0)). split; [reflexivity |].
    rewrite orb_true_iff, Z.eqb_eq, Z.mod_divide by lia. tauto.
Qed.

(** The loop counts: after a list of distinct numbers the counter has
    grown by the number of them that satisfy the condition. *)
Lemma self_ref_fold_spec (digit mode : Z) (ns : list Z) (c : Z) :
  0 <= digit <= 9 -> List.NoDup ns -> (forall n, In n ns -> 1 <= n <= 100) ->
  exists sel,
    foldl (Solver.self_ref_step digit mode) (Returns c) ns
    = Returns (c + Z.of_nat (length sel)) /\
    List.NoDup sel /\
    forall n, In n sel <-> In n ns /\ spec_self_ref_cond digit mode n.
Proof.
  intros Hd. revert c. induction ns as [| x ns IH]; intros c Hnd Hr.
  - exists []. simpl. split; [f_equal; lia |]. split; [constructor | tauto].
  - apply List.NoDup_cons_iff in Hnd as [Hx Hnd].
    destruct (self_ref_step_spec digit mode c x Hd) as (b & Hb & Hspec);
      [apply Hr; by left |].
    cbn [foldl]. rewrite Hb.
    destruct (IH (if b then c + 1 else c) Hnd) as (sel & Hsel & Hnd' & Hin);
      [intros n Hn; apply Hr; by right |].
    destruct b.
    + exists (x :: sel). split; [rewrite Hsel; f_equal; simpl length; lia |].
      split.
      * constructor; [| done]. intros Hx'. apply Hin in Hx'. tauto.
      * intros n. simpl. rewrite Hin. split.
        -- intros [<- | [? ?]]; [split; [by left | by apply Hspec] | tauto].
        -- intros [[-> | ?] ?]; tauto.
    + exists sel. split; [exact Hsel |]. split; [done |].
      intros n. simpl. rewrite Hin. split; [tauto |].
      intros [[<- | ?] Hc]; [| tauto].
      apply Hspec in Hc. discriminate.
Qed.

End SelfRefCount.

(** X7. For a decimal digit and any mode, [_self_ref_count_for_digit_mode]
    returns the number of integers from 1 to 100 that satisfy the mode's
    condition: containing the digit (mode 0), containing it and being even
    (mode 1), containing it and being prime (mode 2), containing it or being
    divisible by 9 (any other mode).  The count is therefore between 0 and
    100. *)
Theorem _self_ref_count_spec (digit mode : Z) :
  0 <= digit <= 9 ->
  exists sel,
    Solver._self_ref_count_for_digit_mode digit mode
    = Returns (Z.of_nat (length sel)) /\
    List.NoDup sel /\
    (forall n, In n sel <-> 1 <= n <= 100 /\ spec_self_ref_cond digit mode n) /\
    0 <= Z.of_nat (length sel) <= 100.
Proof.
  intros Hd. unfold Solver._self_ref_count_for_digit_mode.
  destruct (self_ref_fold_spec digit mode
              (Py.range 1 (Solver.QUESTIONS_PER_TEST + 1)) 0 Hd)
    as (sel & Hs & Hnd & Hin).
  { apply NoDup_range. }
  { intros n Hn. apply In_range in Hn.
    unfold Solver.QUESTIONS_PER_TEST, Engine.QUESTIONS_PER_TEST in Hn. lia. }
  exists sel. split; [exact Hs |]. split; [exact Hnd |]. split.
  - intros n. rewrite Hin, In_range.
    unfold Solver.QUESTIONS_PER_TEST, Engine.QUESTIONS_PER_TEST.
    split; intros [? ?]; (split; [lia | done]).
  - split; [lia |].
    assert (length sel <= length (Py.range 1 (Solver.QUESTIONS_PER_TEST + 1)))%nat.
    { apply List.NoDup_incl_length; [done |]. intros n Hn. by apply Hin in Hn as [? _]. }
    change (length (Py.range 1 (Solver.QUESTIONS_PER_TEST + 1))) with 100%nat in *. lia.
Qed.

Lemma _self_ref_count_spec_witness :
  0 <= 6 <= 9 /\
  Solver._self_ref_count_for_digit_mode 6 3 = Returns 28 /\
  exists sel,
    Solver._self_ref_count_for_digit_mode 6 3 = Returns (Z.of_nat (length sel)) /\
    forall n, In n sel <-> 1 <= n <= 100 /\ spec_self_ref_cond 6 3 n.
Proof.
  assert (Hd : 0 <= 6 <= 9) by lia.
  destruct (_self_ref_count_spec 6 3 Hd) as (sel & Hs & _ & Hin & _).
  split; [exact Hd |]. split; [vm_compute; reflexivity |].
  exists sel. split; [exact Hs | exact Hin].
Defined.

(** With an odd coefficient, moving the input by 13 moves the output of
    the affine map by 13. *)
Lemma affine_half_turn (a b x1 : Z) :
  a mod 2 = 1 ->
  (a * ((x1 + 13) mod 26) + b) mod 26 = ((a * x1 + b) mod 26 + 13) mod 26.
Proof.
  intros Ha.
  pose proof (Z.div_mod a 2 ltac:(lia)) as Hk.
  pose proof (Z.div_mod (x1 + 13) 26 ltac:(lia)) as Hj.
  set (k := a / 2) in *. set (j := (x1 + 13) / 26) in *.
  rewrite Z.add_mod_idemp_l by lia.
  replace (a * ((x1 + 13) mod 26) + b)
    with (a * x1 + b + 13 + (k - a * j) * 26) by nia.
  apply Z_mod_plus_full.
Qed.

(** X8. The letter analogy is a half turn of the alphabet.  On a valid key
    of the letter band the prompt shows the example pair [enc x1] and
    [enc y1], with [y1 = (a x1 + b) mod 26], and asks for the image of
    [enc x2], where [x2] is 13 places from [x1]; the answer
    [solve_question] returns is the letter 13 places from the example's
    output, [enc ((y1 + 13) mod 26)], which is never the example's output
    itself. *)
Theorem letter_answer_half_turn (t q : Z) :
  valid_key t q -> 36 <= q <= 45 ->
  exists Q a b x1 x2 pre mid post,
    Engine.generate_question t q = Returns Q /\
    q_meta Q !! "a_mod_26"%string = Some (MInt a) /\
    q_meta Q !! "b_mod_26"%string = Some (MInt b) /\
    q_meta Q !! "example_input_index"%string = Some (MInt x1) /\
    q_meta Q !! "query_input_index"%string = Some (MInt x2) /\
    let y1 := (a * x1 + b) mod 26 in
    q_prompt Q = pre +:+ Engine.enc x1 +:+ " → " +:+ Engine.enc y1 +:+ mid
                     +:+ Engine.enc x2 +:+ post /\
    x2 = (x1 + 13) mod 26 /\ x2 <> x1 /\
    Solver.solve_question t q = Returns (AStr (Solver.enc ((y1 + 13) mod 26))) /\
    (y1 + 13) mod 26 <> y1.
Proof.
  intros Hv Hq.
  rewrite generate_question_valid, solve_question_valid by done.
  unfold Engine.select, Solver.select. decide_leb. cbn [andb Engine.call Solver.call].
  unfold Engine.generate_letter_question, Solver._solve_letter.
  change (Engine.letter_params t q) with (Solver.letter_params t q).
  pose proof (solver_letter_params t q) as Hp. cbv zeta in Hp.
  unfold spec_letter_a in Hp. rewrite Zeven_mod, letter_a_odd in Hp. cbn [Z.eqb] in Hp.
  rewrite Hp.
  set (a := (2 * t + 1) mod 26). set (b := (3 * (q - 35) + t) mod 26).
  set (x1 := (5 * t + (q - 35)) mod 26).
  pose proof (Z.mod_pos_bound (5 * t + (q - 35)) 26 ltac:(lia)) as Hx1. fold x1 in Hx1.
  pose proof (Z.mod_pos_bound (a * x1 + b) 26 ltac:(lia)) as Hy1.
  eexists _, a, b, x1, ((x1 + 13) mod 26),
    ("Test " +:+ Py.str t +:+ ", Q" +:+ Py.str q
       +:+ " (Letter analogy – hard):" +:+ Py.nl
       +:+ "A secret code maps each letter to another letter according to" +:+ Py.nl
       +:+ "a fixed rule on its position in the alphabet." +:+ Py.nl +:+ Py.nl
       +:+ "Example:" +:+ Py.nl +:+ "    "),
    (Py.nl +:+ Py.nl +:+ "Using the same hidden rule, what letter does "),
    (" map to?" +:+ Py.nl
       +:+ "(All letters are in A–Z, positions taken modulo 26.)").
  split; [reflexivity |]. do 4 (split; [reflexivity |]).
  cbv zeta. split.
  { cbn [q_prompt]. rewrite !append_assoc. reflexivity. }
  split; [reflexivity |].
  split.
  { pose proof (Z.div_mod (x1 + 13) 26 ltac:(lia)).
    pose proof (Z.mod_pos_bound (x1 + 13) 26 ltac:(lia)). lia. }
  split.
  { rewrite affine_half_turn by apply letter_a_odd. reflexivity. }
  pose proof (Z.div_mod ((a * x1 + b) mod 26 + 13) 26 ltac:(lia)).
  pose proof (Z.mod_pos_bound ((a * x1 + b) mod 26 + 13) 26 ltac:(lia)). lia.
Qed.

Lemma letter_answer_half_turn_witness :
  valid_key 1 36 /\ 36 <= 36 <= 45 /\
  Engine.enc ((3 * 6 + 4) mod 26) = "W"%string /\
  Solver.enc (((3 * 6 + 4) mod 26 + 13) mod 26) = "J"%string /\
  exists Q, Engine.generate_question 1 36 = Returns Q /\
            Solver.solve_question 1 36 = Returns (AStr "J").
Proof.
  assert (Hv : valid_key 1 36) by (unfold valid_key; lia).
  assert (Hq : 36 <= 36 <= 45) by lia.
  destruct (letter_answer_half_turn 1 36 Hv Hq)
    as (Q & a & b & x1 & x2 & pre & mid & post & HQ & _).
  split; [exact Hv |]. split; [exact Hq |].
  split; [reflexivity |]. split; [reflexivity |].
  exists Q. split; [exact HQ | reflexivity].
Defined.

Section RavenRoundTrip.
Import Py.

Lemma raven_row_cells (bi bo bf r : Z) :
  exists a b c,
    mapM (fun c => Engine.cell_symbol bi bo bf r c) (range 0 3) = Returns [a; b; c] /\
    Engine.cell_symbol bi bo bf r 0 = Returns a /\
    Engine.cell_symbol bi bo bf r 1 = Returns b /\
    Engine.cell_symbol bi bo bf r 2 = Returns c.
Proof.
  destruct (cell_symbol_succeeds bi bo bf r 0) as [a Ha].
  destruct (cell_symbol_succeeds bi bo bf r 1) as [b Hb].
  destruct (cell_symbol_succeeds bi bo bf r 2) as [c Hc].
  exists a, b, c. rewrite range_0_3. cbn [mapM]. rewrite Ha, Hb, Hc. auto.
Qed.

Lemma raven_grid_cells (bi bo bf : Z) :
  exists g,
    mapM (fun r => mapM (fun c => Engine.cell_symbol bi bo bf r c) (range 0 3))
         (range 0 3) = Returns g /\
    (exists a0 b0 c0 a1 b1 c1 a2 b2 c2,
        g = [[a0; b0; c0]; [a1; b1; c1]; [a2; b2; c2]]) /\
    forall r c, 0 <= r < 3 -> 0 <= c < 3 ->
                exists s, grid_cell g r c = Some s /\
                          Engine.cell_symbol bi bo bf r c = Returns s.
Proof.
  destruct (raven_row_cells bi bo bf 0) as (a0 & b0 & c0 & H0 & A0 & B0 & C0).
  destruct (raven_row_cells bi bo bf 1) as (a1 & b1 & c1 & H1 & A1 & B1 & C1).
  destruct (raven_row_cells bi bo bf 2) as (a2 & b2 & c2 & H2 & A2 & B2 & C2).
  exists [[a0; b0; c0]; [a1; b1; c1]; [a2; b2; c2]].
  split; [| split].
  - set (row := fun r => mapM (fun c => Engine.cell_symbol bi bo bf r c) (range 0 3)).
    change (row 0 = Returns [a0; b0; c0]) in H0.
    change (row 1 = Returns [a1; b1; c1]) in H1.
    change (row 2 = Returns [a2; b2; c2]) in H2.
    rewrite range_0_3. cbn [mapM]. rewrite H0, H1, H2. reflexivity.
  - by exists a0, b0, c0, a1, b1, c1, a2, b2, c2.
  - intros r c Hr Hc.
    assert (r = 0 \/ r = 1 \/ r = 2) as [-> | [-> | ->]] by lia;
      assert (c = 0 \/ c = 1 \/ c = 2) as [-> | [-> | ->]] by lia;
      eexists; (split; [reflexivity | assumption]).
Qed.

End RavenRoundTrip.

(** X9. In the Raven domain the answer is the cell the question hides.
    On a valid key of the band the generator builds a 3 x 3 grid whose
    cell in row [r], column [c] is [cell_symbol(r, c)], shows it with the
    cell at the position recorded under [missing_cell] replaced by the
    placeholder, and that position is the bottom-right, the centre or the
    top-right cell; [solve_question] returns the cell of the grid at that
    position. *)
Theorem raven_answer_is_hidden_cell (t q : Z) :
  valid_key t q -> 56 <= q <= 70 ->
  let local := q - 55 in
  let base_idx := (t + local) mod 4 in
  let base_orient := (2 * t + local) mod 4 in
  let base_fill := (3 * t + 2 * local) mod 3 in
  exists Q g mr mc ans pre post,
    Engine.generate_question t q = Returns Q /\
    Solver.solve_question t q = Returns (AStr ans) /\
    (forall r c, 0 <= r < 3 -> 0 <= c < 3 ->
                 exists s, grid_cell g r c = Some s /\
                           Solver.cell_symbol base_idx base_orient base_fill r c
                           = Returns s) /\
    q_meta Q !! "missing_cell"%string
    = Some (MDict (<["row"%string := MInt mr]> (<["col"%string := MInt mc]> ∅))) /\
    ((mr, mc) = (2, 2) \/ (mr, mc) = (1, 1) \/ (mr, mc) = (0, 2)) /\
    q_prompt Q = pre +:+ Py.join Py.nl (Py.join " | " <$> hidden_grid g mr mc) +:+ post /\
    grid_cell g mr mc = Some ans /\
    grid_cell (hidden_grid g mr mc) mr mc = Some " ? "%string.
Proof.
  intros Hv Hq local bi bo bf.
  rewrite generate_question_valid, solve_question_valid by done.
  unfold Engine.select, Solver.select. decide_leb. cbn [andb Engine.call Solver.call].
  unfold Engine.generate_raven_matrix_question, Solver._solve_raven.
  rewrite !mod__nonzero by done. mstep.
  change (Z.of_nat (length Engine.shapes)) with 4.
  change (Z.of_nat (length Solver.shapes)) with 4.
  fold local. fold bi. fold bo. fold bf.
  destruct (raven_grid_cells bi bo bf) as (g & -> & Hshape & Hcells).
  destruct Hshape as (a0 & b0 & c0 & a1 & b1 & c1 & a2 & b2 & c2 & ->).
  mstep.
  destruct (getitem_in_range Engine.hints ((t + 2 * local) mod 4))
    as (hint & _ & Hhint).
  { pose proof (Z.mod_pos_bound (t + 2 * local) 4). simpl. lia. }
  destruct ((t + local) mod 3 =? 0); [| destruct ((t + local) mod 3 =? 1)].
  - destruct (Hcells 2 2) as (s & Hs & Es); [lia | lia |].
    rewrite solver_cell_symbol_eq, Es. mstep.
    cbn -[Engine.hints Z.modulo Z.add Z.mul Z.sub append Py.str insert Py.join].
    rewrite Hhint. mstep.
    eexists _, [[a0; b0; c0]; [a1; b1; c1]; [a2; b2; c2]], 2, 2, s,
      ("Test " +:+ Py.str t +:+ ", Q" +:+ Py.str q
       +:+ " (Raven-style matrix – hard):" +:+ Py.nl
       +:+ "Below is a 3×3 grid of abstract figures; one cell is replaced by '?'."
       +:+ Py.nl +:+ Py.nl),
      (Py.nl +:+ Py.nl
       +:+ "The grid obeys a consistent rule combining row and column changes" +:+ Py.nl
       +:+ "in shape, orientation, and fill." +:+ Py.nl
       +:+ "Which figure should replace '?'?" +:+ Py.nl +:+ Py.nl
       +:+ "Hint: " +:+ hint).
    split; [reflexivity |]. split; [reflexivity |]. split; [exact Hcells |].
    split; [reflexivity |]. split; [tauto |].
    split; [cbn [q_prompt]; rewrite !append_assoc; reflexivity |].
    split; [exact Hs | reflexivity].
  - destruct (Hcells 1 1) as (s & Hs & Es); [lia | lia |].
    rewrite solver_cell_symbol_eq, Es. mstep.
    cbn -[Engine.hints Z.modulo Z.add Z.mul Z.sub append Py.str insert Py.join].
    rewrite Hhint. mstep.
    eexists _, [[a0; b0; c0]; [a1; b1; c1]; [a2; b2; c2]], 1, 1, s,
      ("Test " +:+ Py.str t +:+ ", Q" +:+ Py.str q
       +:+ " (Raven-style matrix – hard):" +:+ Py.nl
       +:+ "Below is a 3×3 grid of abstract figures; one cell is replaced by '?'."
       +:+ Py.nl +:+ Py.nl),
      (Py.nl +:+ Py.nl
       +:+ "The grid obeys a consistent rule combining row and column changes" +:+ Py.nl
       +:+ "in shape, orientation, and fill." +:+ Py.nl
       +:+ "Which figure should replace '?'?" +:+ Py.nl +:+ Py.nl
       +:+ "Hint: " +:+ hint).
    split; [reflexivity |]. split; [reflexivity |]. split; [exact Hcells |].
    split; [reflexivity |]. split; [tauto |].
    split; [cbn [q_prompt]; rewrite !append_assoc; reflexivity |].
    split; [exact Hs | reflexivity].
  - destruct (Hcells 0 2) as (s & Hs & Es); [lia | lia |].
    rewrite solver_cell_symbol_eq, Es. mstep.
    cbn -[Engine.hints Z.modulo Z.add Z.mul Z.sub append Py.str insert Py.join].
    rewrite Hhint. mstep.
    eexists _, [[a0; b0; c0]; [a1; b1; c1]; [a2; b2; c2]], 0, 2, s,
      ("Test " +:+ Py.str t +:+ ", Q" +:+ Py.str q
       +:+ " (Raven-style matrix – hard):" +:+ Py.nl
       +:+ "Below is a 3×3 grid of abstract figures; one cell is replaced by '?'."
       +:+ Py.nl +:+ Py.nl),
      (Py.nl +:+ Py.nl
       +:+ "The grid obeys a consistent rule combining row and column changes" +:+ Py.nl
       +:+ "in shape, orientation, and fill." +:+ Py.nl
       +:+ "Which figure should replace '?'?" +:+ Py.nl +:+ Py.nl
       +:+ "Hint: " +:+ hint).
    split; [reflexivity |]. split; [reflexivity |]. split; [exact Hcells |].
    split; [reflexivity |]. split; [tauto |].
    split; [cbn [q_prompt]; rewrite !append_assoc; reflexivity |].
    split; [exact Hs | reflexivity].
Qed.

Lemma raven_answer_is_hidden_cell_witness :
  valid_key 2 60 /\ 56 <= 60 <= 70 /\
  exists Q g mr mc ans,
    Engine.generate_question 2 60 = Returns Q /\
    Solver.solve_question 2 60 = Returns (AStr ans) /\
    grid_cell g mr mc = Some ans /\
    grid_cell (hidden_grid g mr mc) mr mc = Some " ? "%string.
Proof.
  assert (Hv : valid_key 2 60) by (unfold valid_key; lia).
  assert (Hq : 56 <= 60 <= 70) by lia.
  destruct (raven_answer_is_hidden_cell 2 60 Hv Hq)
    as (Q & g & mr & mc & ans & pre & post & HQ & HS & _ & _ & _ & _ & Hc & Hh).
  split; [exact Hv |]. split; [exact Hq |].
  exists Q, g, mr, mc, ans. auto.
Defined.

Lemma spec_shape_count_bounds (base step modulus k : Z) :
  0 < modulus -> 1 <= spec_shape_count base step modulus k <= modulus.
Proof.
  intros Hm. unfold spec_shape_count.
  pose proof (Z.mod_pos_bound (base + (k - 1) * step) modulus Hm).
  destruct (Z.eqb_spec ((base + (k - 1) * step) mod modulus) 0); lia.
Qed.

Lemma spec_shape_count_step (base step modulus k : Z) :
  0 < modulus ->
  (spec_shape_count base step modulus (k + 1)
   - spec_shape_count base step modulus k - step) mod modulus = 0.
Proof.
  intros Hm. unfold spec_shape_count.
  pose proof (Z.div_mod (base + (k + 1 - 1) * step) modulus ltac:(lia)) as H1.
  pose proof (Z.div_mod (base + (k - 1) * step) modulus ltac:(lia)) as H2.
  set (r1 := (base + (k + 1 - 1) * step) mod modulus) in *.
  set (r2 := (base + (k - 1) * step) mod modulus) in *.
  set (q1 := (base + (k + 1 - 1) * step) / modulus) in *.
  set (q2 := (base + (k - 1) * step) / modulus) in *.
  apply Z.mod_divide; [lia |].
  destruct (Z.eqb_spec r1 0), (Z.eqb_spec r2 0).
  - exists (q2 - q1 + 0). nia.
  - exists (q2 - q1 + 1). nia.
  - exists (q2 - q1 - 1). nia.
  - exists (q2 - q1). nia.
Qed.

(** X10. In the shape-sequence domain the answer continues the figures
    shown.  On a valid key of the band, the four counts of each symbol
    recorded in the meta and the pair [solve_question] returns are the
    values at [k = 1..4] and at [k = 5] of one recurrence per symbol; every
    count lies between 1 and its modulus, and from one figure to the next
    a count moves by its step modulo its modulus. *)
Theorem shape_answer_continues_figures (t q : Z) :
  valid_key t q -> 81 <= q <= 90 ->
  let local := q - 80 in
  let modulus_A := 5 + (t + local) mod 5 in
  let modulus_B := 6 + (2 * t + local) mod 5 in
  let count_A := spec_shape_count (1 + (t + 2 * local) mod modulus_A)
                                  (1 + (3 * t + local) mod modulus_A) modulus_A in
  let count_B := spec_shape_count (1 + (2 * t + 3 * local) mod modulus_B)
                                  (1 + (4 * t + 2 * local) mod modulus_B) modulus_B in
  (exists Q,
      Engine.generate_question t q = Returns Q /\
      q_meta Q !! "first_four_A"%string
      = Some (MList (MInt <$> (count_A <$> [1; 2; 3; 4]))) /\
      q_meta Q !! "first_four_B"%string
      = Some (MList (MInt <$> (count_B <$> [1; 2; 3; 4])))) /\
  Solver.solve_question t q = Returns (APair (count_A 5) (count_B 5)) /\
  (forall k, 1 <= count_A k <= modulus_A /\ 1 <= count_B k <= modulus_B) /\
  (forall k, (count_A (k + 1) - count_A k - (1 + (3 * t + local) mod modulus_A))
               mod modulus_A = 0 /\
             (count_B (k + 1) - count_B k - (1 + (4 * t + 2 * local) mod modulus_B))
               mod modulus_B = 0).
Proof.
  intros Hv Hq local mA mB cA cB.
  assert (5 <= mA <= 9) as HA.
  { unfold mA. pose proof (Z.mod_pos_bound (t + local) 5). lia. }
  assert (6 <= mB <= 10) as HB.
  { unfold mB. pose proof (Z.mod_pos_bound (2 * t + local) 5). lia. }
  split; [| split; [| split]].
  - rewrite generate_question_valid by done.
    unfold Engine.select. decide_leb. cbn [andb Engine.call].
    unfold Engine.generate_shape_sequence_question, Engine.shape_moduli.
    fold local. fold mA. fold mB.
    repeat (rewrite mod__nonzero by lia; mstep).
    match goal with |- context [Py.getitem ?l ((t + local) mod 3)] =>
      destruct (getitem_in_range l ((t + local) mod 3)) as (sA & _ & ->)
    end.
    { pose proof (Z.mod_pos_bound (t + local) 3). simpl. lia. }
    mstep.
    match goal with |- context [Py.getitem ?l ((2 * t + local) mod 3)] =>
      destruct (getitem_in_range l ((2 * t + local) mod 3)) as (sB & _ & ->)
    end.
    { pose proof (Z.mod_pos_bound (2 * t + local) 3). simpl. lia. }
    mstep.
    change (Py.range 1 5) with [1; 2; 3; 4]. cbn [mapM].
    repeat (rewrite mod__nonzero by lia; mstep).
    change (Py.range 0 4) with [0; 1; 2; 3].
    cbn [mapM fmap list_fmap fst snd Py.getitem length Py.subscript Z.of_nat
         Pos.of_succ_nat Pos.succ Z.ltb Z.leb Z.compare Pos.compare Pos.compare_cont
         andb Z.to_nat Pos.to_nat Pos.iter_op Nat.add lookup list_lookup
         mbind outcome_bind mret outcome_ret].
    eexists. split; [reflexivity |]. split; reflexivity.
  - rewrite solve_question_valid by done.
    unfold Solver.select. decide_leb. cbn [andb Solver.call].
    unfold Solver._solve_shape_sequence, Solver.shape_moduli.
    fold local. fold mA. fold mB.
    repeat (rewrite mod__nonzero by lia; mstep). reflexivity.
  - intros k. split; apply spec_shape_count_bounds; lia.
  - intros k. split; apply spec_shape_count_step; lia.
Qed.

Lemma shape_answer_continues_figures_witness :
  valid_key 1 85 /\ 81 <= 85 <= 90 /\
  Solver.solve_question 1 85 = Returns (APair 6 6) /\
  exists Q,
    Engine.generate_question 1 85 = Returns Q /\
    q_meta Q !! "first_four_A"%string = Some (MList [MInt 6; MInt 3; MInt 6; MInt 3]) /\
    q_meta Q !! "first_four_B"%string = Some (MList [MInt 2; MInt 1; MInt 8; MInt 7]).
Proof.
  assert (Hv : valid_key 1 85) by (unfold valid_key; lia).
  assert (Hq : 81 <= 85 <= 90) by lia.
  destruct (shape_answer_continues_figures 1 85 Hv Hq) as ((Q & HQ & HA & HB) & HS & _).
  split; [exact Hv |]. split; [exact Hq |]. split; [exact HS |].
  exists Q. split; [exact HQ |]. split; [exact HA | exact HB].
Defined.

(** X11. The word problem's answer follows from the numbers in its
    story.  On a valid key of the word band the six quantities recorded in
    the meta satisfy [4 <= base_items <= 12], [1 <= daily_gain <= 5],
    [3 <= days <= 6], [1 <= bonus_factor <= 3], [2 <= groups <= 5] and
    [0 <= loss <= groups]; [solve_question] returns the floor of
    [((base_items + daily_gain * days) * bonus_factor - loss) / groups],
    dividing by a non-zero number, and the answer is never negative. *)
Theorem word_answer_from_story (t q : Z) :
  valid_key t q -> 46 <= q <= 55 ->
  exists Q base_items daily_gain days groups bonus_factor loss answer,
    Engine.generate_question t q = Returns Q /\
    q_meta Q !! "base_items"%string = Some (MInt base_items) /\
    q_meta Q !! "daily_gain"%string = Some (MInt daily_gain) /\
    q_meta Q !! "days"%string = Some (MInt days) /\
    q_meta Q !! "groups"%string = Some (MInt groups) /\
    q_meta Q !! "bonus_factor"%string = Some (MInt bonus_factor) /\
    q_meta Q !! "loss"%string = Some (MInt loss) /\
    4 <= base_items <= 12 /\ 1 <= daily_gain <= 5 /\ 3 <= days <= 6 /\
    1 <= bonus_factor <= 3 /\ 2 <= groups <= 5 /\ 0 <= loss <= groups /\
    Solver.solve_question t q = Returns (AInt answer) /\
    (let total := (base_items + daily_gain * days) * bonus_factor - loss in
     groups * answer <= total < groups * answer + groups) /\
    0 <= answer.
Proof.
  intros Hv Hq.
  rewrite generate_question_valid, solve_question_valid by done.
  unfold Engine.select, Solver.select. decide_leb. cbn [andb Engine.call Solver.call].
  unfold Engine.generate_word_question, Solver._solve_word,
    Engine.word_params, Solver.word_params.
  pose proof (Z.mod_pos_bound t 9 ltac:(lia)).
  pose proof (Z.mod_pos_bound t 4 ltac:(lia)).
  pose proof (Z.mod_pos_bound (q - 45) 5 ltac:(lia)).
  pose proof (Z.mod_pos_bound (t + (q - 45)) 4 ltac:(lia)).
  pose proof (Z.mod_pos_bound (t * (q - 45)) 3 ltac:(lia)).
  rewrite !mod__nonzero by lia. mstep.
  rewrite floordiv_nonzero by lia. mstep.
  set (bi := 4 + t mod 9) in *. set (dg := 1 + (q - 45) mod 5) in *.
  set (days := 3 + (t + (q - 45)) mod 4) in *. set (g := 2 + t mod 4) in *.
  set (bf := 1 + (t * (q - 45)) mod 3) in *.
  set (loss := (bi + dg) mod (g + 1)).
  pose proof (Z.mod_pos_bound (bi + dg) (g + 1) ltac:(lia)) as Hloss. fold loss in Hloss.
  set (total := (bi + dg * days) * bf - loss).
  pose proof (Z.div_mod total g ltac:(lia)) as Hdm.
  pose proof (Z.mod_pos_bound total g ltac:(lia)) as Hmb.
  assert (2 <= total) as Htot by (unfold total; nia).
  assert (0 <= total / g) as Hans by (apply Z.div_pos; lia).
  eexists _, bi, dg, days, g, bf, loss, (total / g).
  split; [reflexivity |]. do 6 (split; [reflexivity |]).
  do 6 (split; [lia |]).
  split; [reflexivity |]. split; [| exact Hans].
  cbv zeta. fold total. lia.
Qed.

Lemma word_answer_from_story_witness :
  valid_key 1 50 /\ 46 <= 50 <= 55 /\
  Solver.solve_question 1 50 = Returns (AInt 9) /\
  ((5 + 1 * 5) * 3 - 2) mod 3 = 1 /\
  exists Q groups answer,
    Engine.generate_question 1 50 = Returns Q /\
    q_meta Q !! "groups"%string = Some (MInt groups) /\
    2 <= groups <= 5 /\
    Solver.solve_question 1 50 = Returns (AInt answer) /\ 0 <= answer.
Proof.
  assert (Hv : valid_key 1 50) by (unfold valid_key; lia).
  assert (Hq : 46 <= 50 <= 55) by lia.
  destruct (word_answer_from_story 1 50 Hv Hq)
    as (Q & bi & dg & days & g & bf & loss & ans & HQ & _ & _ & _ & Hg & _ & _ & _ & _
        & _ & _ & Hgb & _ & HS & _ & Hans).
  split; [exact Hv |]. split; [exact Hq |].
  split; [reflexivity |]. split; [reflexivity |].
  exists Q, g, ans. auto.
Defined.

Section BulkHelpers.
Import Py.

Lemma range_lookup (a b : Z) (i : nat) (x : Z) :
  range a b !! i = Some x <-> x = a + Z.of_nat i /\ a + Z.of_nat i < b.
Proof.
  unfold range. change (map ?f ?l) with (f <$> l).
  rewrite list_lookup_fmap, fmap_Some. split.
  - intros (k & Hk & ->). apply lookup_seq in Hk. lia.
  - intros [-> Hlt]. exists i. split; [| reflexivity]. apply lookup_seq. lia.
Qed.

Lemma range_length (a b : Z) : length (range a b) = Z.to_nat (b - a).
Proof. unfold range. by rewrite length_map, length_seq. Qed.

(** A loop that appends one result per element returns the list of the
    results when every call returns. *)
Lemma mapM_Forall2 {A B : Type} (f : A -> outcome B) (l : list A) :
  (forall x, x ∈ l -> succeeds (f x)) ->
  exists ys, mapM f l = Returns ys /\ Forall2 (fun x y => f x = Returns y) l ys.
Proof.
  induction l as [| x l IH]; intros Hf; cbn [mapM].
  - exists []. split; [reflexivity | constructor].
  - destruct (Hf x) as [y Hy]; [by left |].
    destruct IH as (ys & Hys & HF); [intros z Hz; apply Hf; by right |].
    exists (y :: ys). rewrite Hy. mstep. rewrite Hys. mstep.
    split; [reflexivity | by constructor].
Qed.

(** The first call that raises ends the loop with its exception. *)
Lemma mapM_raises_head {A B : Type} (f : A -> outcome B) (x : A) (l : list A) (e : exn) :
  f x = Raises e -> mapM f (x :: l) = Raises e.
Proof. intros H. cbn [mapM]. by rewrite H. Qed.

End BulkHelpers.

(** X12. [generate_test] on a valid test identifier returns the 100
    questions of the test in ascending order: the question at 0-based
    position [i] is the one [generate_question] returns for question index
    [i + 1], and it carries the test identifier and that index.  On a test
    identifier outside [1, 1000] it raises the validation error about
    [test_id], from its first call. *)
Theorem generate_test_questions (t t' : Z) :
  1 <= t <= 1000 -> ~ 1 <= t' <= 1000 ->
  (exists qs,
      Engine.generate_test t = Returns qs /\
      length qs = 100%nat /\
      forall i Q, qs !! i = Some Q ->
                  Engine.generate_question t (Z.of_nat i + 1) = Returns Q /\
                  q_test_id Q = t /\ q_question_idx Q = Z.of_nat i + 1) /\
  Engine.generate_test t' = Raises (ValueError "test_id must be in 1..1000").
Proof.
  intros Ht Ht'. split.
  - unfold Engine.generate_test.
    destruct (mapM_Forall2 (fun q => Engine.generate_question t q)
                (Py.range 1 (Engine.QUESTIONS_PER_TEST + 1))) as (qs & Hqs & HF).
    { intros q Hq. apply list_elem_of_lookup in Hq as [i Hi].
      apply range_lookup in Hi as [-> Hi].
      apply generate_question_succeeds. unfold valid_key.
      unfold Engine.QUESTIONS_PER_TEST in Hi. lia. }
    exists qs. split; [exact Hqs |]. split.
    { apply Forall2_length in HF. rewrite <- HF, range_length. reflexivity. }
    intros i Q Hi.
    destruct (Forall2_lookup_r _ _ _ _ _ HF Hi) as (q & Hq & HQ).
    apply range_lookup in Hq as [-> Hlt].
    unfold Engine.QUESTIONS_PER_TEST in Hlt.
    replace (Z.of_nat i + 1) with (1 + Z.of_nat i) by lia.
    split; [exact HQ |].
    destruct (generate_question_returns t (1 + Z.of_nat i)) as (Q' & HQ' & Ht1 & Hq1 & _).
    { unfold valid_key. lia. }
    rewrite HQ in HQ'. injection HQ' as <-. by split.
  - unfold Engine.generate_test.
    change (Py.range 1 (Engine.QUESTIONS_PER_TEST + 1))
      with (1 :: Py.range 2 (Engine.QUESTIONS_PER_TEST + 1)).
    apply mapM_raises_head.
    destruct (validation_same_error t' 1 "test_id must be in 1..1000") as [H _];
      [| exact H].
    unfold validation_message. case_decide; [lia | reflexivity].
Qed.

Lemma generate_test_questions_witness :
  1 <= 7 <= 1000 /\ ~ 1 <= 1001 <= 1000 /\
  (exists qs, Engine.generate_test 7 = Returns qs /\ length qs = 100%nat) /\
  Engine.generate_test 1001 = Raises (ValueError "test_id must be in 1..1000").
Proof.
  assert (Ht : 1 <= 7 <= 1000) by lia.
  assert (Ht' : ~ 1 <= 1001 <= 1000) by lia.
  destruct (generate_test_questions 7 1001 Ht Ht') as ((qs & Hqs & Hlen & _) & Hr).
  split; [exact Ht |]. split; [exact Ht' |].
  split; [exists qs; split; [exact Hqs | exact Hlen] | exact Hr].
Defined.

(** X13. [iter_all_tests], run to its end, yields 1000 pairs in ascending
    order of test identifier: the pair at 0-based position [i] is test
    [i + 1] with the list [generate_test] returns for it, 100 questions
    long. *)
Theorem iter_all_tests_yields :
  exists ts,
    Engine.iter_all_tests = Returns ts /\
    length ts = 1000%nat /\
    forall i t qs, ts !! i = Some (t, qs) ->
                   t = Z.of_nat i + 1 /\
                   Engine.generate_test t = Returns qs /\
                   length qs = 100%nat.
Proof.
  unfold Engine.iter_all_tests.
  assert (Hgt : forall t, 1 <= t <= 1000 ->
                          exists qs, Engine.generate_test t = Returns qs /\
                                     length qs = 100%nat).
  { intros t Ht.
    destruct (generate_test_questions t 0 Ht ltac:(lia)) as ((qs & Hqs & Hlen & _) & _).
    by exists qs. }
  destruct (mapM_Forall2
              (fun t => qs ← Engine.generate_test t; Returns (t, qs))
              (Py.range 1 (Engine.NUM_TESTS + 1))) as (ts & Hts & HF).
  { intros t Ht. apply list_elem_of_lookup in Ht as [i Hi].
    apply range_lookup in Hi as [-> Hi]. unfold Engine.NUM_TESTS in Hi.
    destruct (Hgt (1 + Z.of_nat i)) as (qs & -> & _); [lia |]. mstep. by eexists. }
  exists ts. split; [exact Hts |]. split.
  { apply Forall2_length in HF. rewrite <- HF, range_length. reflexivity. }
  intros i t qs Hi.
  destruct (Forall2_lookup_r _ _ _ _ _ HF Hi) as (t0 & Ht0 & Hy).
  apply range_lookup in Ht0 as [-> Hlt]. unfold Engine.NUM_TESTS in Hlt.
  destruct (Hgt (1 + Z.of_nat i)) as (qs' & Hqs' & Hlen); [lia |].
  rewrite Hqs' in Hy. cbn [mbind outcome_bind] in Hy. injection Hy as <- <-.
  split; [lia |]. by split.
Qed.

(** X14. The self-referential answer counts what the question states.  On
    a valid key of the band the meta records a decimal digit and a mode
    between 0 and 3, and [solve_question] returns the number of integers
    from 1 to 100 that satisfy that mode's condition for that digit. *)
Theorem self_ref_answer_counts (t q : Z) :
  valid_key t q -> 91 <= q <= 100 ->
  exists Q digit mode (sel : list Z),
    Engine.generate_question t q = Returns Q /\
    q_meta Q !! "digit"%string = Some (MInt digit) /\
    q_meta Q !! "mode"%string = Some (MInt mode) /\
    q_meta Q !! "range"%string = Some (MTuple [MInt 1; MInt 100]) /\
    0 <= digit <= 9 /\ 0 <= mode <= 3 /\
    Solver.solve_question t q = Returns (AInt (Z.of_nat (length sel))) /\
    List.NoDup sel /\
    (forall n, In n sel <-> 1 <= n <= 100 /\ spec_self_ref_cond digit mode n).
Proof.
  intros Hv Hq.
  rewrite generate_question_valid, solve_question_valid by done.
  unfold Engine.select, Solver.select. decide_leb. cbn [andb Engine.call Solver.call].
  unfold Engine.generate_self_referential_question, Solver._solve_self_referential,
    Engine.self_ref_params, Solver._basic_self_ref_digit_mode.
  set (digit := (t + (q - 90)) mod 10). set (mode := (t + 2 * (q - 90)) mod 4).
  assert (0 <= digit <= 9) as Hd.
  { unfold digit. pose proof (Z.mod_pos_bound (t + (q - 90)) 10). lia. }
  assert (0 <= mode <= 3) as Hm.
  { unfold mode. pose proof (Z.mod_pos_bound (t + 2 * (q - 90)) 4). lia. }
  destruct (_self_ref_count_spec digit mode Hd) as (sel & Hs & Hnd & Hin & _).
  rewrite Hs. mstep.
  eexists _, digit, mode, sel.
  split; [reflexivity |]. do 3 (split; [reflexivity |]).
  split; [exact Hd |]. split; [exact Hm |]. split; [reflexivity |].
  split; [exact Hnd | exact Hin].
Qed.

Lemma self_ref_answer_counts_witness :
  valid_key 5 91 /\ 91 <= 91 <= 100 /\
  Solver.solve_question 5 91 = Returns (AInt 28) /\
  exists Q digit mode (sel : list Z),
    Engine.generate_question 5 91 = Returns Q /\
    q_meta Q !! "digit"%string = Some (MInt digit) /\
    q_meta Q !! "mode"%string = Some (MInt mode) /\
    Solver.solve_question 5 91 = Returns (AInt (Z.of_nat (length sel))).
Proof.
  assert (Hv : valid_key 5 91) by (unfold valid_key; lia).
  assert (Hq : 91 <= 91 <= 100) by lia.
  destruct (self_ref_answer_counts 5 91 Hv Hq)
    as (Q & d & m & sel & HQ & Hd & Hm & _ & _ & _ & HS & _).
  split; [exact Hv |]. split; [exact Hq |]. split; [vm_compute; reflexivity |].
  exists Q, d, m, sel. split; [exact HQ |]. split; [exact Hd |].
  split; [exact Hm | exact HS].
Defined.

(** X15. Every question records its key: on a valid key the question
    returned carries the test identifier and the question index it was
    asked for, the tag of the domain whose band contains the index, and a
    local index between 1 and the width of that band (15 for the numeric
    and Raven bands, 10 for the others). *)
Theorem question_records_key (t q : Z) :
  valid_key t q ->
  exists Q d l,
    Engine.generate_question t q = Returns Q /\
    q_test_id Q = t /\ q_question_idx Q = q /\
    spec_band q = Some d /\ q_domain Q = domain_tag d /\
    q_meta Q !! "local_index"%string = Some (MInt l) /\
    1 <= l <= (match d with Numeric | Raven => 15 | _ => 10 end).
Proof.
  intros Hv.
  destruct (generate_question_returns t q Hv) as (Q & HQ & Ht & Hq & Hd & Hl).
  exists Q, (Engine.select q), (local_index (Engine.select q) q).
  split; [exact HQ |]. split; [exact Ht |]. split; [exact Hq |].
  split; [apply spec_band_select, Hv |]. split; [exact Hd |]. split; [exact Hl |].
  destruct Hv as [_ Hq']. unfold Engine.select.
  repeat match goal with
         | |- context [?a <=? ?b] => destruct (Z.leb_spec a b); cbn [andb local_index]
         end; lia.
Qed.

Lemma question_records_key_witness :
  valid_key 1000 100 /\
  exists Q, Engine.generate_question 1000 100 = Returns Q /\
            q_test_id Q = 1000 /\ q_question_idx Q = 100 /\
            q_domain Q = "self_referential_hard"%string /\
            q_meta Q !! "local_index"%string = Some (MInt 10).
Proof.
  assert (Hv : valid_key 1000 100) by (unfold valid_key; lia).
  destruct (question_records_key 1000 100 Hv) as (Q & d & l & HQ & Ht & Hq & Hb & Hd & Hl & _).
  split; [exact Hv |].
  exists Q. split; [exact HQ |]. split; [exact Ht |]. split; [exact Hq |].
  injection Hb as <-. split; [exact Hd |].
  destruct (generate_question_returns 1000 100 Hv) as (Q' & HQ' & _ & _ & _ & Hl').
  rewrite HQ in HQ'. injection HQ' as <-. exact Hl'.
Defined.

Lemma alphabet_NoDup : NoDup alphabet.
Proof.
  apply (bool_decide_unpack (NoDup alphabet)). vm_compute. exact I.
Qed.

(** X16. The letter encoder always returns a capital letter, the one at
    index [i mod 26] of the alphabet (also for a negative or an oversized
    position), and two positions are encoded alike exactly when they are
    congruent modulo 26; the generator's and the solver's encoders are the
    same function. *)
Theorem enc_letter (i j : Z) :
  alphabet !! Z.to_nat (i mod 26) = Some (Solver.enc i) /\
  Engine.enc i = Solver.enc i /\
  (Solver.enc i = Solver.enc j <-> i mod 26 = j mod 26).
Proof.
  assert (Henc : forall k, alphabet !! Z.to_nat (k mod 26) = Some (Solver.enc k)).
  { intros k. pose proof (Z.mod_pos_bound k 26 ltac:(lia)) as Hk.
    rewrite (enc_alphabet (k mod 26) Hk). f_equal.
    unfold Solver.enc. by rewrite Z.mod_mod by lia. }
  split; [apply Henc |]. split; [reflexivity |]. split.
  - intros He.
    pose proof (Henc i) as Hi. pose proof (Henc j) as Hj. rewrite <- He in Hj.
    pose proof (Z.mod_pos_bound i 26 ltac:(lia)).
    pose proof (Z.mod_pos_bound j 26 ltac:(lia)).
    assert (Z.to_nat (i mod 26) = Z.to_nat (j mod 26)); [| lia].
    eapply NoDup_lookup; [apply alphabet_NoDup | exact Hi | exact Hj].
  - intros Hm. unfold Solver.enc. by rewrite Hm.
Qed.

(** X17. The arrow answer only depends on the test identifier modulo 4:
    two valid keys of the arrow band with the same question index and test
    identifiers 4 apart have the same answer. *)
Theorem arrow_answer_period_4 (t q : Z) :
  valid_key t q -> valid_key (t + 4) q -> 26 <= q <= 35 ->
  Solver.solve_question (t + 4) q = Solver.solve_question t q.
Proof.
  intros Hv Hv' Hq.
  rewrite !solve_question_valid by done.
  unfold Solver.select. decide_leb. cbn [andb Solver.call].
  unfold Solver._solve_arrows.
  replace (7 * (t + 4) + 11 * (q - 25) - 1)
    with (7 * t + 11 * (q - 25) - 1 + 7 * 4) by lia.
  replace (5 * (t + 4) - 3 * (q - 25) - 1)
    with (5 * t - 3 * (q - 25) - 1 + 5 * 4) by lia.
  by rewrite !Z_mod_plus_full.
Qed.

Lemma arrow_answer_period_4_witness :
  valid_key 1 26 /\ valid_key (1 + 4) 26 /\ 26 <= 26 <= 35 /\
  Solver.solve_question (1 + 4) 26 = Solver.solve_question 1 26.
Proof.
  assert (Hv : valid_key 1 26) by (unfold valid_key; lia).
  assert (Hv' : valid_key (1 + 4) 26) by (unfold valid_key; lia).
  assert (Hq : 26 <= 26 <= 35) by lia.
  split; [exact Hv |]. split; [exact Hv' |]. split; [exact Hq |].
  exact (arrow_answer_period_4 1 26 Hv Hv' Hq).
Defined.

(** ** The meta and the solver's answer *)





















